(** * dub-video: the dubbing pipeline of [dub-video.py]

    A shallow embedding of the script's orchestration code: the command
    runner, the stages built on it, the per-segment synthesis loop with its
    speaker fallback, the concat directive file, and [main] with its
    [try]/[finally] around the temporary workspace.

    The external collaborators (yt-dlp and ffmpeg processes, the Whisper and
    Coqui TTS engines, and the few calls of the Python standard library whose
    answer depends on the machine) are fields of an environment record: the
    script is verified for every behaviour they may show. *)

From Stdlib Require Import Strings.String Strings.Ascii Lists.List Bool.Bool.
From Stdlib Require Import Arith.PeanoNat micromega.Lia.
From Stdlib Require Import Numbers.DecimalString Init.Decimal.
From Stdlib Require Numbers.DecimalNat Numbers.DecimalFacts.
From Stdlib Require Import Structures.OrdersEx QArith.QArith_base.
Import ListNotations.

Close Scope Q_scope.
Local Open Scope nat_scope.
Local Open Scope string_scope.
Local Open Scope list_scope.

Infix "+++" := String.append (at level 60, right associativity).

(* ------------------------------------------------------------------ *)
(** ** Python values the script relies on *)

(** The line feed of ["\n"]. *)
Definition LF : string := String (ascii_of_nat 10) EmptyString.

(** Truth value of an optional string in [if x:] : [None] and the empty
    string are false. *)
Definition truthy (x : option string) : bool :=
  match x with
  | Some (String _ _) => true
  | _ => false
  end.

(** [sep.join(parts)]. *)
Definition str_join (sep : string) (parts : list string) : string :=
  String.concat sep parts.

Fixpoint endswith_slash (s : string) : bool :=
  match s with
  | EmptyString => false
  | String c EmptyString => Ascii.eqb c "/"
  | String _ rest => endswith_slash rest
  end.

(** [b.startswith("/")]. *)
Definition startswith_slash (b : string) : bool :=
  match b with
  | String c _ => Ascii.eqb c "/"
  | EmptyString => false
  end.

(** [os.path.join(a, b)] of posixpath, two components. *)
Definition os_path_join (a b : string) : string :=
  if startswith_slash b then b
  else match a with
       | EmptyString => b
       | _ => if endswith_slash a then a +++ b else a +++ "/" +++ b
       end.

(** [str(i)] for a non-negative index. *)
Definition decimal (i : nat) : string :=
  NilZero.string_of_uint (Nat.to_uint i).

Fixpoint zeros (k : nat) : string :=
  match k with
  | O => EmptyString
  | S k' => String "0" (zeros k')
  end.

(** [format(i, "04d")] for a non-negative index: the decimal digits, padded
    on the left with zeros up to width 4, never truncated. *)
Definition format_04d (i : nat) : string :=
  let d := decimal i in
  zeros (4 - String.length d) +++ d.

(** [f"segment_{i:04d}.wav"]. *)
Definition segment_name (i : nat) : string :=
  "segment_" +++ format_04d i +++ ".wav".

(** [enumerate(xs)], counting from [start]. *)
Fixpoint enumerate_from {A : Type} (start : nat) (xs : list A) : list (nat * A) :=
  match xs with
  | [] => []
  | x :: rest => (start, x) :: enumerate_from (S start) rest
  end.

Definition enumerate {A : Type} (xs : list A) : list (nat * A) :=
  enumerate_from 0 xs.

(* ------------------------------------------------------------------ *)
(** ** File system *)

(** What a path names.  The model is flat: one entry per path, no
    permissions and no requirement that a parent directory exists. *)
Inductive Node : Type :=
| Dir
| File (content : string).

Definition FS : Type := string -> option Node.

Definition fs_set (fs : FS) (p : string) (n : option Node) : FS :=
  fun q => if String.eqb q p then n else fs q.

(** [p] is [d] itself or lies below it. *)
Definition in_tree (d p : string) : bool :=
  String.eqb p d || String.prefix (d +++ "/") p.

Definition fs_remove_tree (fs : FS) (d : string) : FS :=
  fun q => if in_tree d q then None else fs q.

Definition is_present (n : option Node) : bool :=
  match n with Some _ => true | None => false end.

(* ------------------------------------------------------------------ *)
(** ** Exceptions, events, and the monad of the script *)

Inductive Exn : Type :=
| FileNotFoundError (msg : string)
| CalledProcessError (cmd : list string)
| FileExistsError (path : string)
| IsADirectoryError (path : string)
| NotADirectoryError (path : string)
| WhisperError
| TTSError.

(** Everything the script does to the outside, in the order it does it.
    A call is recorded when it is made, whether or not it succeeds. *)
Inductive Event : Type :=
| EvPrint (line : string)
| EvRun (argv : list string)
| EvMkdtemp (d : string)
| EvMakedirs (d : string)
| EvWrite (path content : string)
| EvRemove (path : string)
| EvRmtree (d : string)
| EvWhisperLoad (name : string)
| EvTranscribe (audio : string) (language : option string)
| EvTTSInit (model_name : string)
| EvTTSToFile (text file_path : string)
              (speaker language speaker_wav : option string).

Inductive Result (A : Type) : Type :=
| Ok (a : A)
| Raise (e : Exn).
Arguments Ok {A} a.
Arguments Raise {A} e.

Record Outcome (A : Type) : Type := mkOutcome {
  res : Result A;
  fs_after : FS;
  trace : list Event
}.
Arguments mkOutcome {A} _ _ _.
Arguments res {A} _.
Arguments fs_after {A} _.
Arguments trace {A} _.

(** A computation reads and changes the file system, records its events and
    either returns or raises. *)
Definition M (A : Type) : Type := FS -> Outcome A.

Definition ret {A : Type} (a : A) : M A :=
  fun fs => mkOutcome (Ok a) fs [].

Definition raise {A : Type} (e : Exn) : M A :=
  fun fs => mkOutcome (Raise e) fs [].

Definition bind {A B : Type} (m : M A) (k : A -> M B) : M B :=
  fun fs =>
    let o := m fs in
    match res o with
    | Ok a =>
        let o' := k a (fs_after o) in
        mkOutcome (res o') (fs_after o') (trace o ++ trace o')
    | Raise e => mkOutcome (Raise e) (fs_after o) (trace o)
    end.

(** [try: body finally: cleanup].  The cleanup always runs; when it raises,
    its exception replaces whatever the body produced. *)
Definition try_finally {A : Type} (body : M A) (cleanup : M unit) : M A :=
  fun fs =>
    let o := body fs in
    let c := cleanup (fs_after o) in
    mkOutcome (match res c with
               | Ok _ => res o
               | Raise e => Raise e
               end)
              (fs_after c) (trace o ++ trace c).

Declare Scope m_scope.
Delimit Scope m_scope with M.
Notation "x <- c1 ;; c2" := (bind c1 (fun x => c2))
  (at level 100, c1 at next level, right associativity) : m_scope.
Notation "c1 ;; c2" := (bind c1 (fun _ => c2))
  (at level 100, right associativity) : m_scope.
Local Open Scope m_scope.

Definition emit (e : Event) : M unit :=
  fun fs => mkOutcome (Ok tt) fs [e].

(** [print(line)]. *)
Definition print (line : string) : M unit := emit (EvPrint line).

(** A call into a collaborator: recorded, then answered by the
    collaborator, which may change the file system; [None] is an exception
    raised by the call. *)
Definition call {A : Type} (ev : Event) (f : FS -> option A * FS) (e : Exn) : M A :=
  fun fs =>
    mkOutcome (match fst (f fs) with Some a => Ok a | None => Raise e end)
              (snd (f fs)) [ev].

(** [os.path.exists(p)]. *)
Definition os_path_exists (p : string) : M bool :=
  fun fs => mkOutcome (Ok (is_present (fs p))) fs [].

(** [os.makedirs(d, exist_ok=True)]. *)
Definition os_makedirs (d : string) : M unit :=
  fun fs =>
    match fs d with
    | Some (File _) => mkOutcome (Raise (FileExistsError d)) fs [EvMakedirs d]
    | _ => mkOutcome (Ok tt) (fs_set fs d (Some Dir)) [EvMakedirs d]
    end.

(** [with open(p, "w") as f: ...] once the block has written [content]. *)
Definition write_file (p content : string) : M unit :=
  fun fs =>
    match fs p with
    | Some Dir => mkOutcome (Raise (IsADirectoryError p)) fs [EvWrite p content]
    | _ => mkOutcome (Ok tt) (fs_set fs p (Some (File content))) [EvWrite p content]
    end.

(** [os.remove(p)]. *)
Definition os_remove (p : string) : M unit :=
  fun fs =>
    match fs p with
    | None => mkOutcome (Raise (FileNotFoundError p)) fs [EvRemove p]
    | Some Dir => mkOutcome (Raise (IsADirectoryError p)) fs [EvRemove p]
    | Some (File _) => mkOutcome (Ok tt) (fs_set fs p None) [EvRemove p]
    end.

(** [shutil.rmtree(d)]. *)
Definition shutil_rmtree (d : string) : M unit :=
  fun fs =>
    match fs d with
    | None => mkOutcome (Raise (FileNotFoundError d)) fs [EvRmtree d]
    | Some (File _) => mkOutcome (Raise (NotADirectoryError d)) fs [EvRmtree d]
    | Some Dir => mkOutcome (Ok tt) (fs_remove_tree fs d) [EvRmtree d]
    end.

(* ------------------------------------------------------------------ *)
(** ** Data of a run *)

(** One entry of Whisper's [result["segments"]].  The script reads only
    ["text"]; the times (seconds) are carried along. *)
Record Segment : Type := mkSegment {
  seg_start : Q;
  seg_end : Q;
  seg_text : string
}.

(** The namespace returned by [parser.parse_args()]. *)
Record Args : Type := mkArgs {
  video : option string;
  url : option string;
  output : string;
  language : option string;
  whisper_model : string;
  tts_model : string;
  voice : option string;
  speaker_wav : option string
}.

(** The defaults declared with [add_argument]. *)
Definition default_args : Args :=
  {| video := None;
     url := None;
     output := "dubbed_video.mp4";
     language := None;
     whisper_model := "small";
     tts_model := "tts_models/multilingual/multi-dataset/xtts_v2";
     voice := None;
     speaker_wav := None |}.

(** The collaborators.  An answer of [None] (or [false] for a process) is
    a failure of the call: an exception, or a non-zero exit status. *)
Record Env : Type := mkEnv {
  WhisperModel : Type;
  TTS : Type;
  (** the directory name [tempfile.mkdtemp()] picks *)
  mkdtemp_name : FS -> string;
  (** [os.path.abspath], for the working directory of the run *)
  os_path_abspath : string -> string;
  (** [subprocess.run(cmd)]: exit status zero?, and what the process did *)
  subprocess_run : list string -> FS -> bool * FS;
  whisper_load_model : string -> FS -> option WhisperModel * FS;
  (** [model.transcribe(audio, language=...)["segments"]] *)
  whisper_transcribe :
    WhisperModel -> string -> option string -> FS -> option (list Segment) * FS;
  (** [TTS(model_name=...)] *)
  TTS_new : string -> FS -> option TTS * FS;
  (** [tts.speakers] when the attribute exists and is not [None] *)
  tts_speakers : TTS -> option (list string);
  (** [tts.tts_to_file(text, file_path, speaker, language, speaker_wav)];
      the engine object may change *)
  tts_to_file :
    TTS -> string -> string -> option string -> option string -> option string ->
    FS -> option TTS * FS
}.

(* ------------------------------------------------------------------ *)
(** ** The script *)

Section Script.

Variable E : Env.

(** [tempfile.mkdtemp()]. *)
Definition tempfile_mkdtemp : M string :=
  fun fs =>
    let d := mkdtemp_name E fs in
    mkOutcome (Ok d) (fs_set fs d (Some Dir)) [EvMkdtemp d].

(** [run_cmd(cmd)]: announce the command, run it, raise on a non-zero
    exit. *)
Definition run_cmd (cmd : list string) : M unit :=
  print ("[RUN] " +++ str_join " " cmd) ;;
  call (EvRun cmd)
       (fun fs => (if fst (subprocess_run E cmd fs) then Some tt else None,
                   snd (subprocess_run E cmd fs)))
       (CalledProcessError cmd).

Definition download_remote_video (url output_path : string) : M unit :=
  run_cmd [ "yt-dlp";
            "-f"; "bestvideo+bestaudio";
            "--merge-output-format"; "mp4";
            "-o"; output_path;
            url ].

Definition extract_audio (video_path audio_path : string) : M unit :=
  run_cmd [ "ffmpeg"; "-y";
            "-i"; video_path;
            "-vn";
            "-acodec"; "pcm_s16le";
            "-ar"; "16000";
            "-ac"; "1";
            audio_path ].

Definition combine_audio_video (video_path audio_path output_path : string) : M unit :=
  run_cmd [ "ffmpeg"; "-y";
            "-i"; video_path;
            "-i"; audio_path;
            "-c:v"; "copy";
            "-map"; "0:v:0";
            "-map"; "1:a:0";
            output_path ].

Definition transcribe_audio (model_name audio_path : string)
    (language : option string) : M (list Segment) :=
  model <- call (EvWhisperLoad model_name)
                (whisper_load_model E model_name) WhisperError ;;
  let hint := if truthy language then language else None in
  call (EvTranscribe audio_path hint)
       (whisper_transcribe E model audio_path hint) WhisperError.

Fixpoint print_lines (lines : list string) : M unit :=
  match lines with
  | [] => ret tt
  | l :: rest => print l ;; print_lines rest
  end.

(** [voice in tts.speakers]. *)
Definition in_roster (v : string) (roster : list string) : bool :=
  existsb (String.eqb v) roster.

(** Lines 88-103: the speaker handed to every synthesis call. *)
Definition resolve_speaker (tts : TTS E) (voice : option string)
    : M (option string) :=
  match tts_speakers E tts with
  | Some ((first :: _) as roster) =>
      print (LF +++ "[INFO] Available voices for this model:") ;;
      print_lines (map (fun spk => "  - " +++ spk) roster) ;;
      print EmptyString ;;
      match voice with
      | Some (String _ _ as v) =>
          if in_roster v roster then ret (Some v)
          else
            print ("[WARN] Voice '" +++ v +++ "' not found, defaulting to: "
                   +++ first) ;;
            ret (Some first)
      | _ =>
          print ("[INFO] No voice provided, defaulting to: " +++ first) ;;
          ret (Some first)
      end
  | _ => ret None
  end.

(** Lines 105-117: the loop over [enumerate(segments)].  [tqdm] only wraps
    the iterator. *)
Fixpoint synthesis_loop (tts : TTS E) (out_dir : string)
    (speaker language speaker_wav : option string)
    (items : list (nat * Segment)) (out_files : list string)
    : M (list string) :=
  match items with
  | [] => ret out_files
  | (i, seg) :: rest =>
      let out_path := os_path_join out_dir (segment_name i) in
      tts' <- call (EvTTSToFile (seg_text seg) out_path speaker language speaker_wav)
                   (tts_to_file E tts (seg_text seg) out_path
                                speaker language speaker_wav)
                   TTSError ;;
      synthesis_loop tts' out_dir speaker language speaker_wav rest
                     (out_files ++ [out_path])
  end.

Definition synthesize_segments_tts (model_name : string)
    (segments : list Segment) (out_dir : string)
    (voice language speaker_wav : option string) : M (list string) :=
  tts <- call (EvTTSInit model_name) (TTS_new E model_name) TTSError ;;
  speaker <- resolve_speaker tts voice ;;
  synthesis_loop tts out_dir speaker language speaker_wav
                 (enumerate segments) [].

(** One line of the concat directive file. *)
Definition concat_entry (file : string) : string :=
  "file '" +++ os_path_abspath E file +++ "'" +++ LF.

(** What the [for file in files: f.write(...)] loop leaves in the file. *)
Definition concat_list_content (files : list string) : string :=
  fold_left (fun written file => written +++ concat_entry file)
            files EmptyString.

Definition concat_argv (list_path output_path : string) : list string :=
  [ "ffmpeg"; "-y";
    "-f"; "concat";
    "-safe"; "0";
    "-i"; list_path;
    "-c"; "copy";
    output_path ].

Definition concatenate_audio (files : list string) (output_path : string)
    : M unit :=
  let list_path := output_path +++ "_list.txt" in
  write_file list_path (concat_list_content files) ;;
  run_cmd (concat_argv list_path output_path) ;;
  os_remove list_path.

(** Lines 159-166: the source video of the run, or the exception of line
    166. *)
Definition acquire_source (args : Args) (temp_dir : string) : M string :=
  video_path <-
    match url args with
    | Some (String _ _ as u) =>
        let video_path := os_path_join temp_dir "input.mp4" in
        print "[INFO] Downloading remote video..." ;;
        download_remote_video u video_path ;;
        ret (Some video_path)
    | _ => ret (video args)
    end ;;
  match video_path with
  | Some (String _ _ as video_path) =>
      present <- os_path_exists video_path ;;
      if negb present then
        raise (FileNotFoundError "No valid video file provided.")
      else ret video_path
  | _ => raise (FileNotFoundError "No valid video file provided.")
  end.

(** Lines 168-187: the stages that follow. *)
Definition dub_stages (args : Args) (temp_dir video_path : string) : M unit :=
  print "[INFO] Extracting audio..." ;;
  let audio_path := os_path_join temp_dir "audio.wav" in
  extract_audio video_path audio_path ;;
  print "[INFO] Transcribing with Whisper..." ;;
  segments <- transcribe_audio (whisper_model args) audio_path (language args) ;;
  print "[INFO] Synthesizing TTS segments with Coqui..." ;;
  let tts_out_dir := os_path_join temp_dir "tts_segments" in
  os_makedirs tts_out_dir ;;
  tts_files <- synthesize_segments_tts (tts_model args) segments tts_out_dir
                 (voice args) (language args) (speaker_wav args) ;;
  print "[INFO] Concatenating TTS segments..." ;;
  let full_tts_path := os_path_join temp_dir "tts_full.wav" in
  concatenate_audio tts_files full_tts_path ;;
  print "[INFO] Combining dubbed audio with original video..." ;;
  combine_audio_video video_path full_tts_path (output args) ;;
  print ("[DONE] Dubbed video saved to: " +++ output args).

(** The [try] block of [main]. *)
Definition main_body (args : Args) (temp_dir : string) : M unit :=
  video_path <- acquire_source args temp_dir ;;
  dub_stages args temp_dir video_path.

Definition main (args : Args) : M unit :=
  temp_dir <- tempfile_mkdtemp ;;
  try_finally (main_body args temp_dir)
              (print "[INFO] Cleaning up temporary files..." ;;
               shutil_rmtree temp_dir).

End Script.

(* ------------------------------------------------------------------ *)
(** ** Vocabulary of the properties *)

(** [emits P m]: every event [m] can produce satisfies [P]. *)
Definition emits {A : Type} (P : Event -> Prop) (m : M A) : Prop :=
  forall fs, Forall P (trace (m fs)).

(** A call of the synthesis engine for one segment. *)
Definition is_tts_call (ev : Event) : bool :=
  match ev with
  | EvTTSToFile _ _ _ _ _ => true
  | _ => false
  end.

Definition tts_calls (tr : list Event) : list Event := filter is_tts_call tr.

(** The video a codec-tool command reads as its first input: the
    extraction and remux commands begin [ffmpeg -y -i <video>]. *)
Definition video_input (ev : Event) : option string :=
  match ev with
  | EvRun ("ffmpeg" :: "-y" :: "-i" :: p :: _) => Some p
  | _ => None
  end.

Fixpoint video_inputs (tr : list Event) : list string :=
  match tr with
  | [] => []
  | ev :: rest =>
      match video_input ev with
      | Some p => p :: video_inputs rest
      | None => video_inputs rest
      end
  end.

(** An operation of Audio Extraction, Transcription, Synthesis,
    Concatenation or Remux: any codec-tool process, any engine call, and
    the script's own preparation of the synthesis directory and of the
    concat directive file. *)
Definition is_later_stage (ev : Event) : bool :=
  match ev with
  | EvRun ("ffmpeg" :: _) => true
  | EvWhisperLoad _ | EvTranscribe _ _ => true
  | EvTTSInit _ | EvTTSToFile _ _ _ _ _ => true
  | EvMakedirs _ | EvWrite _ _ | EvRemove _ => true
  | _ => false
  end.

(** A line printed with the [[WARN]] tag. *)
Definition is_warning (ev : Event) : bool :=
  match ev with
  | EvPrint l => String.prefix "[WARN]" l
  | _ => false
  end.

(** A process started by the script. *)
Definition is_run (ev : Event) : bool :=
  match ev with
  | EvRun _ => true
  | _ => false
  end.

Definition is_failure {A : Type} (r : Result A) : bool :=
  match r with
  | Ok _ => false
  | Raise _ => true
  end.

(** The lines that list the roster. *)
Definition roster_lines (roster : list string) : list Event :=
  EvPrint (LF +++ "[INFO] Available voices for this model:")
  :: map EvPrint (map (fun spk => "  - " +++ spk) roster)
  ++ [EvPrint EmptyString].

Definition warn_line (v first : string) : Event :=
  EvPrint ("[WARN] Voice '" +++ v +++ "' not found, defaulting to: " +++ first).

Definition info_line (first : string) : Event :=
  EvPrint ("[INFO] No voice provided, defaulting to: " +++ first).

Section Vocabulary.

Variable E : Env.

(** The engine call the loop makes for item [(i, seg)]. *)
Definition call_of (out_dir : string) (speaker language speaker_wav : option string)
    (item : nat * Segment) : Event :=
  EvTTSToFile (seg_text (snd item))
              (os_path_join out_dir (segment_name (fst item)))
              speaker language speaker_wav.

(** The path of the clip of segment [i]. *)
Definition clip_path (out_dir : string) (i : nat) : string :=
  os_path_join out_dir (segment_name i).

(** The command of [download_remote_video]. *)
Definition fetch_argv (u output_path : string) : list string :=
  [ "yt-dlp"; "-f"; "bestvideo+bestaudio"; "--merge-output-format"; "mp4";
    "-o"; output_path; u ].

(** The command of [extract_audio]. *)
Definition extract_argv (video_path audio_path : string) : list string :=
  [ "ffmpeg"; "-y"; "-i"; video_path; "-vn"; "-acodec"; "pcm_s16le";
    "-ar"; "16000"; "-ac"; "1"; audio_path ].

(** The command of [combine_audio_video]. *)
Definition remux_argv (video_path audio_path output_path : string) : list string :=
  [ "ffmpeg"; "-y"; "-i"; video_path; "-i"; audio_path;
    "-c:v"; "copy"; "-map"; "0:v:0"; "-map"; "1:a:0"; output_path ].

End Vocabulary.


(** What [os.path.join(out_dir, name)] puts before a relative [name]. *)
Definition dir_prefix (out_dir : string) : string :=
  match out_dir with
  | EmptyString => EmptyString
  | _ => if endswith_slash out_dir then out_dir else out_dir +++ "/"
  end.

(** [a < b] on [str]: lexical order by character code. *)
Definition str_lt (a b : string) : bool := String.ltb a b.

(* ------------------------------------------------------------------ *)
(** ** A concrete environment

    Every tool succeeds: yt-dlp and ffmpeg create the file named last but
    one (yt-dlp) or last (ffmpeg) on their command line, Whisper returns
    [segs], the engine has roster [roster] and writes each clip. *)

Definition empty_fs : FS := fun _ => None.

Definition demo_run (fetch_ok : bool) (argv : list string) (fs : FS) : bool * FS :=
  match argv with
  | "yt-dlp" :: _ =>
      if fetch_ok then (true, fs_set fs (nth 6 argv EmptyString) (Some (File "mp4")))
      else (false, fs)
  | _ => (true, fs_set fs (last argv EmptyString) (Some (File "media")))
  end.

Definition demo_env (fetch_ok : bool) (roster : option (list string))
    (segs : list Segment) : Env :=
  {| WhisperModel := unit;
     TTS := unit;
     mkdtemp_name := fun _ => "/tmp/tmpdub";
     os_path_abspath := fun p => p;
     subprocess_run := demo_run fetch_ok;
     whisper_load_model := fun _ fs => (Some tt, fs);
     whisper_transcribe := fun _ _ _ fs => (Some segs, fs);
     TTS_new := fun _ fs => (Some tt, fs);
     tts_speakers := fun _ => roster;
     tts_to_file := fun _ _ path _ _ _ fs =>
                      (Some tt, fs_set fs path (Some (File "wav"))) |}.

Definition seg (text : string) : Segment :=
  {| seg_start := 0%Q; seg_end := 1%Q; seg_text := text |}.

(** The three segments of the end-to-end scenario. *)
Definition hello_world : list Segment := [seg "Hello"; seg EmptyString; seg "World"].

Definition narrators : list string := ["narrator_a"; "narrator_b"].

(** The number of indices that fit in four digits: 0 to 9999. *)
Definition four_digit_indices : nat := 100 * 100.

(** A run of the Synthesis Stage on one segment more than four digits can
    number. *)
Definition long_segments : list Segment := repeat (seg "x") (S four_digit_indices).

Definition long_run : Outcome (list string) :=
  synthesize_segments_tts (demo_env true (Some narrators) long_segments)
    "xtts" long_segments "/tmp/tmpdub/tts_segments" None None None empty_fs.

(** The scenario of the spec: roster [narrator_a, narrator_b], three
    segments. *)
Definition demo : Env := demo_env true (Some narrators) hello_world.

Definition demo_out_dir : string := "/tmp/tmpdub/tts_segments".

(* ------------------------------------------------------------------ *)
(** ** Vocabulary of the run *)

(** Text made of the given pieces, one after the other. *)
Fixpoint join_entries (entries : list string) : string :=
  match entries with
  | [] => EmptyString
  | e :: rest => e +++ join_entries rest
  end.

Definition is_LF (c : ascii) : bool := Ascii.eqb c (ascii_of_nat 10).

(** The lines of a text, each without its line feed. *)
Fixpoint split_lines (s : string) : list string :=
  match s with
  | EmptyString => []
  | String c rest =>
      if is_LF c then EmptyString :: split_lines rest
      else match split_lines rest with
           | [] => [String c EmptyString]
           | l :: ls => String c l :: ls
           end
  end.

Fixpoint has_LF (s : string) : bool :=
  match s with
  | EmptyString => false
  | String c rest => is_LF c || has_LF rest
  end.

Definition with_video (args : Args) (v : option string) : Args :=
  {| video := v;
     url := url args;
     output := output args;
     language := language args;
     whisper_model := whisper_model args;
     tts_model := tts_model args;
     voice := voice args;
     speaker_wav := speaker_wav args |}.

Section RunVocabulary.

Variable E : Env.

(** The workspace of a run started on [fs], and the file system once it
    is created. *)
Definition workspace (fs : FS) : string := mkdtemp_name E fs.

Definition fs_at_start (fs : FS) : FS := fs_set fs (workspace fs) (Some Dir).

(** Lines 159-161: the value of [video_path] when line 165 tests it, should
    the fetch return. *)
Definition chosen_source (args : Args) (fs : FS) : option string :=
  match url args with
  | Some (String _ _) => Some (os_path_join (workspace fs) "input.mp4")
  | _ => video args
  end.



End RunVocabulary.

(* ------------------------------------------------------------------ *)
(** ** Concrete runs *)

Definition talk : string := "/videos/talk.mp4".

(** A file system that holds the local video. *)
Definition fs_with_talk : FS := fs_set empty_fs talk (Some (File "video")).

(** [--video /videos/talk.mp4 --url https://example.org/v]. *)
Definition both_args : Args :=
  {| video := Some talk;
     url := Some "https://example.org/v";
     output := "dubbed_video.mp4";
     language := None;
     whisper_model := "small";
     tts_model := "tts_models/multilingual/multi-dataset/xtts_v2";
     voice := Some "en_us_female";
     speaker_wav := None |}.

(** [--url https://example.org/v]. *)
Definition url_args : Args := with_video both_args None.


Definition cleanup_line : Event := EvPrint "[INFO] Cleaning up temporary files...".

(** All engine calls of a trace carry one and the same speaker (and the
    language and reference audio of the run). *)
Definition one_speaker (language speaker_wav : option string)
    (tr : list Event) : Prop :=
  exists s,
    Forall (fun ev => exists text path,
              ev = EvTTSToFile text path s language speaker_wav)
           (tts_calls tr).

(* ------------------------------------------------------------------ *)
(** ** Vocabulary of the further properties *)



(** A call of either engine: Whisper or Coqui TTS. *)
Definition is_engine_event (ev : Event) : bool :=
  match ev with
  | EvWhisperLoad _ | EvTranscribe _ _ => true
  | EvTTSInit _ | EvTTSToFile _ _ _ _ _ => true
  | _ => false
  end.

(** The language [transcribe_audio] hands to Whisper. *)
Definition whisper_hint (language : option string) : option string :=
  if truthy language then language else None.

Section Alphabet.

Variable E : Env.
Variable args : Args.
Variable fs : FS.

(** Everything a run of [main] on [args] from [fs] may do, with the
    arguments it does it with. *)
Inductive run_event : Event -> Prop :=
| re_print (l : string) : run_event (EvPrint l)
| re_mkdtemp : run_event (EvMkdtemp (workspace E fs))
| re_fetch (c : ascii) (u : string) :
    url args = Some (String c u) ->
    run_event (EvRun (fetch_argv (String c u)
                                 (os_path_join (workspace E fs) "input.mp4")))
| re_extract (src : string) :
    chosen_source E args fs = Some src ->
    run_event (EvRun (extract_argv src
                                   (os_path_join (workspace E fs) "audio.wav")))
| re_load : run_event (EvWhisperLoad (whisper_model args))
| re_transcribe :
    run_event (EvTranscribe (os_path_join (workspace E fs) "audio.wav")
                            (whisper_hint (language args)))
| re_makedirs :
    run_event (EvMakedirs (os_path_join (workspace E fs) "tts_segments"))
| re_init : run_event (EvTTSInit (tts_model args))
| re_call (text : string) (i : nat) (s : option string) :
    run_event (EvTTSToFile text
                 (clip_path (os_path_join (workspace E fs) "tts_segments") i)
                 s (language args) (speaker_wav args))
| re_write (content : string) :
    run_event (EvWrite (os_path_join (workspace E fs) "tts_full.wav"
                        +++ "_list.txt") content)
| re_concat :
    run_event (EvRun (concat_argv
                        (os_path_join (workspace E fs) "tts_full.wav"
                         +++ "_list.txt")
                        (os_path_join (workspace E fs) "tts_full.wav")))
| re_remove :
    run_event (EvRemove (os_path_join (workspace E fs) "tts_full.wav"
                         +++ "_list.txt"))
| re_remux (src : string) :
    chosen_source E args fs = Some src ->
    run_event (EvRun (remux_argv src
                        (os_path_join (workspace E fs) "tts_full.wav")
                        (output args)))
| re_rmtree : run_event (EvRmtree (workspace E fs)).

End Alphabet.

Section Expected.

Variable E : Env.


End Expected.

(** The index written in a run of decimal digits. *)
Definition index_of_digits (s : string) : option nat :=
  option_map Nat.of_uint (NilEmpty.uint_of_string s).

(** The names [main] gives, inside workspace [d], to what the run
    produces on the way. *)
Definition intermediate_paths (d : string) : list string :=
  [ os_path_join d "input.mp4";
    os_path_join d "audio.wav";
    os_path_join d "tts_segments";
    os_path_join d "tts_full.wav";
    os_path_join d "tts_full.wav" +++ "_list.txt" ].

(** An environment like [demo_env] with the given behaviour of
    processes. *)
Definition env_with_run (run : list string -> FS -> bool * FS)
    (roster : option (list string)) (segs : list Segment) : Env :=
  {| WhisperModel := unit;
     TTS := unit;
     mkdtemp_name := fun _ => "/tmp/tmpdub";
     os_path_abspath := fun p => p;
     subprocess_run := run;
     whisper_load_model := fun _ fs => (Some tt, fs);
     whisper_transcribe := fun _ _ _ fs => (Some segs, fs);
     TTS_new := fun _ fs => (Some tt, fs);
     tts_speakers := fun _ => roster;
     tts_to_file := fun _ _ path _ _ _ fs =>
                      (Some tt, fs_set fs path (Some (File "wav"))) |}.

(** Processes where every codec-tool command exits non-zero and the fetch
    succeeds. *)
Definition ffmpeg_fails (argv : list string) (fs : FS) : bool * FS :=
  match argv with
  | "yt-dlp" :: _ => (true, fs_set fs (nth 6 argv EmptyString) (Some (File "mp4")))
  | _ => (false, fs)
  end.

Definition broken_codec : Env := env_with_run ffmpeg_fails (Some narrators) hello_world.

(** The engine of [demo] without a roster. *)
Definition no_roster : Env := demo_env true None hello_world.

(** [--video /videos/talk.mp4], no URL. *)
Definition local_args : Args :=
  {| video := Some talk;
     url := None;
     output := "dubbed_video.mp4";
     language := Some EmptyString;
     whisper_model := "small";
     tts_model := "tts_models/multilingual/multi-dataset/xtts_v2";
     voice := Some "narrator_b";
     speaker_wav := None |}.

(* ================================================================== *)
(** * Properties *)

(* ------------------------------------------------------------------ *)
(** ** Equations of the monad *)

Section MonadFacts.

Context {A B : Type}.

Lemma bind_Ok (m : M A) (k : A -> M B) fs a :
  res (m fs) = Ok a ->
  bind m k fs =
  mkOutcome (res (k a (fs_after (m fs)))) (fs_after (k a (fs_after (m fs))))
            (trace (m fs) ++ trace (k a (fs_after (m fs)))).
Proof. unfold bind. intros ->. reflexivity. Qed.

Lemma bind_Raise (m : M A) (k : A -> M B) fs e :
  res (m fs) = Raise e ->
  bind m k fs = mkOutcome (Raise e) (fs_after (m fs)) (trace (m fs)).
Proof. unfold bind. intros ->. reflexivity. Qed.

Lemma call_Ok (ev : Event) (f : FS -> option A * FS) (e : Exn) fs a :
  fst (f fs) = Some a -> res (call ev f e fs) = Ok a.
Proof. unfold call. simpl. intros ->. reflexivity. Qed.

Lemma call_Raise (ev : Event) (f : FS -> option A * FS) (e : Exn) fs :
  fst (f fs) = None -> res (call ev f e fs) = Raise e.
Proof. unfold call. simpl. intros ->. reflexivity. Qed.

(** Whatever happens, the events of [m] come first. *)
Lemma trace_bind_prefix (m : M A) (k : A -> M B) fs :
  exists rest, trace (bind m k fs) = trace (m fs) ++ rest.
Proof.
  unfold bind. destruct (res (m fs)); simpl.
  - eexists; reflexivity.
  - exists []. now rewrite app_nil_r.
Qed.

End MonadFacts.

Section Emits.

Variable P : Event -> Prop.

Lemma emits_ret {A} (a : A) : emits P (ret a).
Proof. intros fs. constructor. Qed.

Lemma emits_raise {A} (e : Exn) : emits P (@raise A e).
Proof. intros fs. constructor. Qed.

Lemma emits_bind {A B} (m : M A) (k : A -> M B) :
  emits P m -> (forall a, emits P (k a)) -> emits P (bind m k).
Proof.
  intros Hm Hk fs. unfold bind.
  destruct (res (m fs)); simpl.
  - apply Forall_app. split; [apply Hm | apply Hk].
  - apply Hm.
Qed.

Lemma emits_try_finally {A} (body : M A) (cleanup : M unit) :
  emits P body -> emits P cleanup -> emits P (try_finally body cleanup).
Proof.
  intros Hb Hc fs. unfold try_finally. simpl.
  apply Forall_app. split; [apply Hb | apply Hc].
Qed.

Lemma emits_emit (e : Event) : P e -> emits P (emit e).
Proof. intros H fs. repeat constructor. exact H. Qed.

Lemma emits_print (l : string) : P (EvPrint l) -> emits P (print l).
Proof. apply emits_emit. Qed.

Lemma emits_call {A} (ev : Event) (f : FS -> option A * FS) (e : Exn) :
  P ev -> emits P (call ev f e).
Proof. intros H fs. repeat constructor. exact H. Qed.

Lemma emits_os_path_exists (p : string) : emits P (os_path_exists p).
Proof. intros fs. constructor. Qed.

Lemma emits_os_makedirs (d : string) : P (EvMakedirs d) -> emits P (os_makedirs d).
Proof.
  intros H fs. unfold os_makedirs.
  destruct (fs d) as [[|c]|]; repeat constructor; exact H.
Qed.

Lemma emits_write_file (p c : string) : P (EvWrite p c) -> emits P (write_file p c).
Proof.
  intros H fs. unfold write_file.
  destruct (fs p) as [[|c']|]; repeat constructor; exact H.
Qed.

Lemma emits_os_remove (p : string) : P (EvRemove p) -> emits P (os_remove p).
Proof.
  intros H fs. unfold os_remove.
  destruct (fs p) as [[|c']|]; repeat constructor; exact H.
Qed.

Lemma emits_shutil_rmtree (d : string) : P (EvRmtree d) -> emits P (shutil_rmtree d).
Proof.
  intros H fs. unfold shutil_rmtree.
  destruct (fs d) as [[|c']|]; repeat constructor; exact H.
Qed.

Lemma emits_print_lines (ls : list string) :
  (forall l, In l ls -> P (EvPrint l)) -> emits P (print_lines ls).
Proof.
  induction ls as [|l ls IH]; intros H; simpl.
  - apply emits_ret.
  - apply emits_bind.
    + apply emits_print, H. now left.
    + intros _. apply IH. intros l' Hl'. apply H. now right.
Qed.

End Emits.

(* ------------------------------------------------------------------ *)
(** ** Enumeration and names *)

Lemma enumerate_from_length {A} (xs : list A) n :
  length (enumerate_from n xs) = length xs.
Proof. revert n. induction xs; simpl; intros; [reflexivity | now rewrite IHxs]. Qed.

Lemma enumerate_from_fst {A} (xs : list A) n :
  map fst (enumerate_from n xs) = seq n (length xs).
Proof. revert n. induction xs; simpl; intros; [reflexivity | now rewrite IHxs]. Qed.

Lemma enumerate_from_snd {A} (xs : list A) n :
  map snd (enumerate_from n xs) = xs.
Proof. revert n. induction xs; simpl; intros; [reflexivity | now rewrite IHxs]. Qed.


Lemma In_firstn {A} (k : nat) (l : list A) (x : A) :
  In x (firstn k l) -> In x l.
Proof.
  intros H. rewrite <- (firstn_skipn k l). apply in_or_app. now left.
Qed.

(* ------------------------------------------------------------------ *)
(** ** The synthesis loop *)

Section Loop.

Variable E : Env.
Variables (out_dir : string) (speaker language speaker_wav : option string).

Local Abbreviation mk := (call_of out_dir speaker language speaker_wav).

(** The loop calls the engine on the items in order and stops only when a
    call raises; when it returns, it has made one call per item and
    appended one path per item. *)
Lemma synthesis_loop_spec items :
  forall tts acc fs,
    let o := synthesis_loop E tts out_dir speaker language speaker_wav items acc fs in
    exists k,
      k <= length items /\
      trace o = firstn k (map mk items) /\
      match res o with
      | Ok files =>
          k = length items /\
          files = acc ++ map (fun it => clip_path out_dir (fst it)) items
      | Raise e => e = TTSError /\ 1 <= k
      end.
Proof.
  induction items as [|[i seg] rest IH]; intros tts acc fs o.
  - exists 0. simpl. repeat split; auto. now rewrite app_nil_r.
  - subst o. simpl synthesis_loop.
    set (out_path := os_path_join out_dir (segment_name i)).
    set (c := call _ _ _).
    destruct (fst (tts_to_file E tts (seg_text seg) out_path
                               speaker language speaker_wav fs))
      as [tts'|] eqn:Hcall.
    + assert (Hc : res (c fs) = Ok tts') by (subst c; apply call_Ok, Hcall).
      rewrite (bind_Ok _ _ _ _ Hc). simpl res. simpl trace.
      destruct (IH tts' (acc ++ [out_path]) (fs_after (c fs)))
        as (k & Hk & Htr & Hres).
      exists (S k). split; [simpl; lia|]. split.
      * simpl. apply (f_equal2 cons); [reflexivity | exact Htr].
      * revert Hres.
        destruct (res (synthesis_loop _ _ _ _ _ _ _ _ _)) as [files|e].
        -- intros [-> ->]. split; [reflexivity|].
           rewrite <- app_assoc. reflexivity.
        -- intros [-> ?]. split; [reflexivity | lia].
    + assert (Hc : res (c fs) = Raise TTSError)
        by (subst c; apply call_Raise, Hcall).
      rewrite (bind_Raise _ _ _ _ Hc). simpl.
      exists 1. split; [lia|]. split; [|split; [reflexivity | lia]].
      reflexivity.
Qed.

Lemma synthesis_loop_only_calls items tts acc fs :
  Forall (fun ev => exists text path,
            ev = EvTTSToFile text path speaker language speaker_wav)
         (trace (synthesis_loop E tts out_dir speaker language speaker_wav
                                items acc fs)).
Proof.
  destruct (synthesis_loop_spec items tts acc fs) as (k & _ & Htr & _).
  rewrite Htr. apply Forall_forall. intros ev Hin.
  apply In_firstn in Hin. apply in_map_iff in Hin.
  destruct Hin as ([i seg] & <- & _). unfold mk, call_of. simpl. eauto.
Qed.

End Loop.

(* ------------------------------------------------------------------ *)
(** ** Speaker resolution *)

Lemma print_lines_eq (ls : list string) fs :
  print_lines ls fs = mkOutcome (Ok tt) fs (map EvPrint ls).
Proof.
  revert fs. induction ls as [|l ls IH]; intros fs; simpl.
  - reflexivity.
  - unfold bind, print, emit. simpl. rewrite IH. reflexivity.
Qed.

Section Resolution.

Variable E : Env.

Ltac run_resolve :=
  unfold resolve_speaker, bind, print, emit, ret; simpl;
  repeat (rewrite print_lines_eq; simpl).

(** No roster: no speaker, nothing printed. *)
Lemma resolve_speaker_no_roster tts voice fs :
  (tts_speakers E tts = None \/ tts_speakers E tts = Some []) ->
  resolve_speaker E tts voice fs = mkOutcome (Ok None) fs [].
Proof. intros [H|H]; unfold resolve_speaker; rewrite H; reflexivity. Qed.

(** The requested voice is in the roster. *)
Lemma resolve_speaker_found tts first rest c v fs :
  tts_speakers E tts = Some (first :: rest) ->
  in_roster (String c v) (first :: rest) = true ->
  resolve_speaker E tts (Some (String c v)) fs =
  mkOutcome (Ok (Some (String c v))) fs (roster_lines (first :: rest)).
Proof.
  intros Hr Hin. unfold resolve_speaker. rewrite Hr. cbv beta iota.
  rewrite Hin. run_resolve.
  unfold roster_lines. simpl. rewrite <- ?app_assoc. reflexivity.
Qed.

(** The requested voice is not in the roster. *)
Lemma resolve_speaker_missing tts first rest c v fs :
  tts_speakers E tts = Some (first :: rest) ->
  in_roster (String c v) (first :: rest) = false ->
  resolve_speaker E tts (Some (String c v)) fs =
  mkOutcome (Ok (Some first)) fs
            (roster_lines (first :: rest) ++ [warn_line (String c v) first]).
Proof.
  intros Hr Hin. unfold resolve_speaker. rewrite Hr. cbv beta iota.
  rewrite Hin. run_resolve.
  unfold roster_lines, warn_line. simpl. rewrite <- ?app_assoc. reflexivity.
Qed.

(** No voice: [None], or the empty string. *)
Lemma resolve_speaker_default tts first rest voice fs :
  tts_speakers E tts = Some (first :: rest) ->
  truthy voice = false ->
  resolve_speaker E tts voice fs =
  mkOutcome (Ok (Some first)) fs
            (roster_lines (first :: rest) ++ [info_line first]).
Proof.
  intros Hr Hv. unfold resolve_speaker. rewrite Hr.
  destruct voice as [[|c v]|]; try discriminate; run_resolve;
    unfold roster_lines, info_line; simpl; rewrite <- ?app_assoc; reflexivity.
Qed.

(** Resolution only prints. *)
Lemma resolve_speaker_prints_only (P : Event -> Prop) tts voice :
  (forall l, P (EvPrint l)) -> emits P (resolve_speaker E tts voice).
Proof.
  intros HP. unfold resolve_speaker.
  destruct (tts_speakers E tts) as [[|first rest]|]; try apply emits_ret.
  apply emits_bind; [apply emits_print, HP | intros _].
  apply emits_bind; [apply emits_print_lines; intros; apply HP | intros _].
  apply emits_bind; [apply emits_print, HP | intros _].
  destruct voice as [[|c v]|].
  - apply emits_bind; [apply emits_print, HP | intros _; apply emits_ret].
  - destruct (in_roster _ _); [apply emits_ret|].
    apply emits_bind; [apply emits_print, HP | intros _; apply emits_ret].
  - apply emits_bind; [apply emits_print, HP | intros _; apply emits_ret].
Qed.

(** Resolution never raises, leaves the file system alone, calls the
    engine for no segment, and its answer does not depend on the file
    system. *)
Lemma resolve_speaker_total tts voice :
  exists s tr,
    Forall (fun ev => is_tts_call ev = false) tr /\
    forall fs, resolve_speaker E tts voice fs = mkOutcome (Ok s) fs tr.
Proof.
  assert (Hlines : forall roster,
             Forall (fun ev => is_tts_call ev = false) (roster_lines roster)).
  { intros roster. unfold roster_lines. constructor; [reflexivity|].
    apply Forall_app. split; [|repeat constructor].
    apply Forall_forall. intros ev Hev. apply in_map_iff in Hev.
    destruct Hev as (l & <- & _). reflexivity. }
  destruct (tts_speakers E tts) as [[|first rest]|] eqn:Hr.
  - exists None, []. split; [constructor|]. intros fs.
    apply resolve_speaker_no_roster. now right.
  - destruct (truthy voice) eqn:Hv.
    + destruct voice as [[|c v]|]; try discriminate.
      destruct (in_roster (String c v) (first :: rest)) eqn:Hin.
      * eexists _, _. split; [|intros fs; apply (resolve_speaker_found _ _ _ _ _ _ Hr Hin)].
        apply Hlines.
      * eexists _, _. split; [|intros fs; apply (resolve_speaker_missing _ _ _ _ _ _ Hr Hin)].
        apply Forall_app. split; [apply Hlines | repeat constructor].
    + eexists _, _. split; [|intros fs; apply (resolve_speaker_default _ _ _ _ _ Hr Hv)].
      apply Forall_app. split; [apply Hlines | repeat constructor].
  - exists None, []. split; [constructor|]. intros fs.
    apply resolve_speaker_no_roster. now left.
Qed.

End Resolution.

(* ------------------------------------------------------------------ *)
(** ** The Synthesis Stage as a whole *)

Lemma filter_none {A} (f : A -> bool) (l : list A) :
  Forall (fun x => f x = false) l -> filter f l = [].
Proof.
  induction 1 as [|x l Hx _ IH]; simpl; [reflexivity | now rewrite Hx].
Qed.

Lemma filter_all {A} (f : A -> bool) (l : list A) :
  Forall (fun x => f x = true) l -> filter f l = l.
Proof.
  induction 1 as [|x l Hx _ IH]; simpl; [reflexivity | now rewrite Hx, IH].
Qed.

Section Synthesis.

Variable E : Env.
Variables (model_name : string) (segments : list Segment) (out_dir : string).
Variables (voice language speaker_wav : option string).

Local Abbreviation run :=
  (synthesize_segments_tts E model_name segments out_dir
                           voice language speaker_wav).

(** The engine cannot be built: the stage stops there. *)
Lemma synthesize_no_engine fs :
  fst (TTS_new E model_name fs) = None ->
  run fs = mkOutcome (Raise TTSError) (snd (TTS_new E model_name fs))
                     [EvTTSInit model_name].
Proof.
  intros H. unfold run, synthesize_segments_tts.
  rewrite (bind_Raise _ _ _ TTSError); [reflexivity|].
  now apply call_Raise.
Qed.

(** Otherwise the stage is the resolution followed by the loop. *)
Lemma synthesize_with_engine fs tts s tr :
  fst (TTS_new E model_name fs) = Some tts ->
  (forall fs', resolve_speaker E tts voice fs' = mkOutcome (Ok s) fs' tr) ->
  let loop := synthesis_loop E tts out_dir s language speaker_wav
                             (enumerate segments) []
                             (snd (TTS_new E model_name fs)) in
  run fs = mkOutcome (res loop) (fs_after loop)
                     (EvTTSInit model_name :: tr ++ trace loop).
Proof.
  intros Hnew Hres loop. unfold run, synthesize_segments_tts.
  rewrite (bind_Ok _ _ _ tts); [|now apply call_Ok].
  simpl. unfold bind. rewrite Hres. simpl. reflexivity.
Qed.

(** The engine calls of the stage are those of the loop. *)
Lemma tts_calls_stage tr calls s :
  Forall (fun ev => is_tts_call ev = false) tr ->
  Forall (fun ev => exists text path,
            ev = EvTTSToFile text path s language speaker_wav) calls ->
  tts_calls (EvTTSInit model_name :: tr ++ calls) = calls.
Proof.
  intros Htr Hcalls. unfold tts_calls. simpl. rewrite filter_app.
  rewrite (filter_none _ _ Htr). simpl. apply filter_all.
  eapply Forall_impl; [|exact Hcalls].
  intros ev (text & path & ->). reflexivity.
Qed.

End Synthesis.

(* ------------------------------------------------------------------ *)
(** ** Clip names and their lexical order *)

Lemma compare_as_OT (a b : string) :
  String.compare a b = String_as_OT.compare a b.
Proof.
  revert b. induction a as [|c a IH]; destruct b as [|d b]; simpl; auto;
    unfold Ascii.compare, Ascii_as_OT.compare, N_as_OT.compare;
    destruct (BinNat.N.compare _ _); auto.
Qed.

Lemma str_lt_iff (a b : string) :
  str_lt a b = true <-> String_as_OT.lt a b.
Proof.
  unfold str_lt, String.ltb, String_as_OT.lt. rewrite compare_as_OT.
  destruct (String_as_OT.compare a b); split; congruence.
Qed.

Lemma str_lt_trans (a b c : string) :
  str_lt a b = true -> str_lt b c = true -> str_lt a c = true.
Proof.
  rewrite !str_lt_iff.
  apply (@StrictOrder_Transitive _ _ String_as_OT.lt_strorder).
Qed.

Lemma ascii_compare_refl (c : ascii) : Ascii.compare c c = Eq.
Proof. unfold Ascii.compare. apply BinNat.N.compare_refl. Qed.

Lemma str_lt_same_prefix (p a b : string) :
  str_lt (p +++ a) (p +++ b) = str_lt a b.
Proof.
  unfold str_lt, String.ltb. induction p as [|c p IH]; simpl.
  - reflexivity.
  - rewrite ascii_compare_refl. exact IH.
Qed.

Lemma append_assoc (a b c : string) : (a +++ b) +++ c = a +++ b +++ c.
Proof. induction a as [|x a IH]; simpl; [reflexivity | now rewrite IH]. Qed.

(** A clip name is relative, so the join only puts the directory before
    it. *)
Lemma clip_path_eq (out_dir : string) (i : nat) :
  clip_path out_dir i = dir_prefix out_dir +++ segment_name i.
Proof.
  unfold clip_path, os_path_join, dir_prefix.
  change (startswith_slash (segment_name i)) with false. cbv iota.
  destruct out_dir as [|c rest]; [reflexivity|].
  destruct (endswith_slash (String c rest)); [reflexivity|].
  now rewrite append_assoc.
Qed.

(** Consecutive names of four-digit indices are in lexical order: checked
    on each of them. *)
Lemma segment_name_step (i : nat) :
  S i < four_digit_indices ->
  str_lt (segment_name i) (segment_name (S i)) = true.
Proof.
  intros Hi.
  assert (H : forallb (fun k => str_lt (segment_name k) (segment_name (S k)))
                      (seq 0 (four_digit_indices - 1)) = true)
    by (vm_compute; reflexivity).
  rewrite forallb_forall in H. apply H. apply in_seq.
  unfold four_digit_indices in *. lia.
Qed.

Lemma segment_name_lt (i j : nat) :
  i < j -> j < four_digit_indices ->
  str_lt (segment_name i) (segment_name j) = true.
Proof.
  intros Hij. induction Hij as [|j Hij IH]; intros Hj.
  - now apply segment_name_step.
  - eapply str_lt_trans; [apply IH; lia | apply segment_name_step; lia].
Qed.

Lemma clip_path_lt (out_dir : string) (i j : nat) :
  i < j -> j < four_digit_indices ->
  str_lt (clip_path out_dir i) (clip_path out_dir j) = true.
Proof.
  intros Hij Hj. rewrite !clip_path_eq, str_lt_same_prefix.
  now apply segment_name_lt.
Qed.

(* ================================================================== *)
(** * The Synthesis Stage: voice, clips, segments *)

Section SynthesisClaims.

Variable E : Env.
Variables (model_name : string) (segments : list Segment) (out_dir : string).
Variables (language speaker_wav : option string).

(** C3.  When the engine has a roster and the requested voice is not in
    it, the speaker is the first entry of the roster, the [[WARN]] line is
    printed after the roster, and the stage goes on to the loop with that
    speaker: it ends as the loop ends, which is also how it ends when the
    first entry itself is requested.  The fallback is a function of the
    roster alone.  A requested voice is a non-empty one: line 95 tests
    [if voice:], and the script reports an empty [--voice] as "No voice
    provided" (see [no_voice_defaults_to_first]). *)
Theorem voice_mismatch_falls_back_to_first
    (v : string) (tts : TTS E) (first : string) (rest : list string) (fs : FS) :
  fst (TTS_new E model_name fs) = Some tts ->
  tts_speakers E tts = Some (first :: rest) ->
  v <> EmptyString ->
  in_roster v (first :: rest) = false ->
  let o := synthesize_segments_tts E model_name segments out_dir
                                   (Some v) language speaker_wav fs in
  let o' := synthesize_segments_tts E model_name segments out_dir
                                    (Some first) language speaker_wav fs in
  let loop := synthesis_loop E tts out_dir (Some first) language speaker_wav
                             (enumerate segments) []
                             (snd (TTS_new E model_name fs)) in
  res (resolve_speaker E tts (Some v) fs) = Ok (Some first) /\
  trace o = EvTTSInit model_name
            :: roster_lines (first :: rest) ++ [warn_line v first] ++ trace loop /\
  res o = res loop /\
  res o = res o' /\
  (forall p, fs_after o p = fs_after o' p).
Proof.
  intros Hnew Hr Hv Hin o o' loop.
  destruct v as [|c v]; [congruence|].
  pose proof (resolve_speaker_missing E tts first rest c v) as Hres.
  specialize (fun fs' => Hres fs' Hr Hin).
  split; [now rewrite Hres|].
  pose proof (synthesize_with_engine E model_name segments out_dir
                (Some (String c v)) language speaker_wav fs tts _ _ Hnew Hres)
    as Ho.
  cbv zeta in Ho. fold o loop in Ho.
  assert (Hres' : exists tr, forall fs',
             resolve_speaker E tts (Some first) fs'
             = mkOutcome (Ok (Some first)) fs' tr).
  { destruct first as [|c' v'].
    - eexists. intros fs'.
      apply (resolve_speaker_default E tts _ rest (Some EmptyString) fs' Hr eq_refl).
    - eexists. intros fs'.
      apply resolve_speaker_found with (rest := rest); [exact Hr|].
      unfold in_roster. cbn [existsb]. now rewrite String.eqb_refl. }
  destruct Hres' as (tr' & Hres').
  pose proof (synthesize_with_engine E model_name segments out_dir
                (Some first) language speaker_wav fs tts _ _ Hnew Hres')
    as Ho'.
  cbv zeta in Ho'. fold o' loop in Ho'.
  rewrite Ho, Ho'. simpl. rewrite <- app_assoc. simpl. repeat split.
Qed.

(** C10.  When the engine has a roster and no voice is given ([None] or
    the empty string), the speaker is the first entry of the roster, the
    [[INFO]] line is printed after the roster, no line is a warning, and
    every engine call carries that speaker. *)
Theorem no_voice_defaults_to_first
    (voice : option string) (tts : TTS E) (first : string) (rest : list string)
    (fs : FS) :
  fst (TTS_new E model_name fs) = Some tts ->
  tts_speakers E tts = Some (first :: rest) ->
  truthy voice = false ->
  let o := synthesize_segments_tts E model_name segments out_dir
                                   voice language speaker_wav fs in
  let loop := synthesis_loop E tts out_dir (Some first) language speaker_wav
                             (enumerate segments) []
                             (snd (TTS_new E model_name fs)) in
  res (resolve_speaker E tts voice fs) = Ok (Some first) /\
  trace o = EvTTSInit model_name
            :: roster_lines (first :: rest) ++ [info_line first] ++ trace loop /\
  Forall (fun ev => is_warning ev = false) (trace o) /\
  Forall (fun ev => exists text path,
            ev = EvTTSToFile text path (Some first) language speaker_wav)
         (tts_calls (trace o)).
Proof.
  intros Hnew Hr Hv o loop.
  pose proof (resolve_speaker_default E tts first rest voice) as Hres.
  specialize (fun fs' => Hres fs' Hr Hv).
  split; [now rewrite Hres|].
  pose proof (synthesize_with_engine E model_name segments out_dir
                voice language speaker_wav fs tts _ _ Hnew Hres) as Ho.
  cbv zeta in Ho. fold o loop in Ho.
  pose proof (synthesis_loop_only_calls E out_dir (Some first) language
                speaker_wav (enumerate segments) tts []
                (snd (TTS_new E model_name fs))) as Hcalls.
  fold loop in Hcalls.
  assert (Htr : trace o = EvTTSInit model_name
                 :: roster_lines (first :: rest) ++ [info_line first] ++ trace loop).
  { rewrite Ho. simpl. now rewrite <- app_assoc. }
  split; [exact Htr|]. split.
  - rewrite Htr. constructor; [reflexivity|].
    apply Forall_app. split.
    + unfold roster_lines. constructor; [reflexivity|].
      apply Forall_app. split; [|repeat constructor].
      apply Forall_forall. intros ev Hev. apply in_map_iff in Hev.
      destruct Hev as (l & <- & Hl). apply in_map_iff in Hl.
      destruct Hl as (spk & <- & _). reflexivity.
    + constructor; [reflexivity|].
      eapply Forall_impl; [|exact Hcalls].
      intros ev (text & path & ->). reflexivity.
  - rewrite Htr, app_assoc.
    rewrite (tts_calls_stage model_name language speaker_wav _ _ (Some first));
      [exact Hcalls | | exact Hcalls].
    apply Forall_app. split; [|repeat constructor].
    unfold roster_lines. constructor; [reflexivity|].
    apply Forall_app. split; [|repeat constructor].
    apply Forall_forall. intros ev Hev. apply in_map_iff in Hev.
    destruct Hev as (l & <- & _). reflexivity.
Qed.

End SynthesisClaims.

Section StageClaims.

Variable E : Env.
Variables (model_name : string) (segments : list Segment) (out_dir : string).
Variables (voice language speaker_wav : option string).

Local Abbreviation stage :=
  (synthesize_segments_tts E model_name segments out_dir
                           voice language speaker_wav).

(** What every run of the stage looks like. *)
Lemma stage_shape fs :
  (fst (TTS_new E model_name fs) = None /\
   stage fs = mkOutcome (Raise TTSError) (snd (TTS_new E model_name fs))
                        [EvTTSInit model_name]) \/
  (exists tts s tr k,
      fst (TTS_new E model_name fs) = Some tts /\
      (forall fs', resolve_speaker E tts voice fs' = mkOutcome (Ok s) fs' tr) /\
      Forall (fun ev => is_tts_call ev = false) tr /\
      k <= length segments /\
      let calls := firstn k (map (call_of out_dir s language speaker_wav)
                                 (enumerate segments)) in
      trace (stage fs) = EvTTSInit model_name :: tr ++ calls /\
      tts_calls (trace (stage fs)) = calls /\
      match res (stage fs) with
      | Ok files =>
          k = length segments /\
          files = map (clip_path out_dir) (seq 0 (length segments))
      | Raise e => e = TTSError /\ 1 <= k
      end).
Proof.
  destruct (fst (TTS_new E model_name fs)) as [tts|] eqn:Hnew.
  - right.
    destruct (resolve_speaker_total E tts voice) as (s & tr & Hno & Hres).
    pose proof (synthesize_with_engine E model_name segments out_dir
                  voice language speaker_wav fs tts s tr Hnew Hres) as Ho.
    cbv zeta in Ho. fold stage in Ho.
    destruct (synthesis_loop_spec E out_dir s language speaker_wav
                (enumerate segments) tts []
                (snd (TTS_new E model_name fs))) as (k & Hk & Htr & Hr).
    unfold enumerate in *. rewrite enumerate_from_length in Hk.
    exists tts, s, tr, k. repeat split; auto.
    + rewrite Ho. simpl. now rewrite Htr.
    + rewrite Ho. simpl trace. rewrite Htr.
      apply (tts_calls_stage model_name language speaker_wav tr _ s Hno).
      apply Forall_forall. intros ev Hev. apply In_firstn in Hev.
      apply in_map_iff in Hev. destruct Hev as ([i sg] & <- & _).
      unfold call_of. simpl. eauto.
    + rewrite Ho. simpl res. revert Hr.
      destruct (res (synthesis_loop _ _ _ _ _ _ _ _ _)) as [files|e].
      * intros [-> ->]. rewrite enumerate_from_length. split; [reflexivity|].
        simpl. rewrite <- (enumerate_from_fst segments 0), map_map.
        reflexivity.
      * auto.
  - left. split; [reflexivity|]. now apply synthesize_no_engine.
Qed.



End StageClaims.

(** C6 (amended).  When the stage returns, the list it returns holds, for
    each segment index in order, the path made of the output directory and
    [segment_<index, four digits or more>.wav]; the engine has been called
    exactly once per segment, in index order, with that segment's text and
    that path; and among indices below ten thousand the paths are in
    lexical order. *)
Theorem one_clip_per_segment_in_order
    (E : Env) (model_name : string) (segments : list Segment) (out_dir : string)
    (voice language speaker_wav : option string) (fs : FS) (files : list string) :
  res (synthesize_segments_tts E model_name segments out_dir
                               voice language speaker_wav fs) = Ok files ->
  files = map (clip_path out_dir) (seq 0 (length segments)) /\
  (exists s,
      tts_calls (trace (synthesize_segments_tts E model_name segments out_dir
                                                voice language speaker_wav fs))
      = map (call_of out_dir s language speaker_wav) (enumerate segments)) /\
  (forall i j, i < j -> j < length segments -> j < four_digit_indices ->
     str_lt (nth i files EmptyString) (nth j files EmptyString) = true).
Proof.
  intros Hok.
  destruct (stage_shape E model_name segments out_dir voice language
                        speaker_wav fs)
    as [[_ Ho] | (tts & s & tr & k & _ & _ & _ & _ & H)].
  - rewrite Ho in Hok. discriminate.
  - cbv zeta in H. destruct H as (_ & Hcalls & Hr).
    rewrite Hok in Hr. destruct Hr as [-> ->].
    split; [reflexivity|]. split.
    + exists s. rewrite Hcalls.
      apply firstn_all2. rewrite length_map. unfold enumerate.
      now rewrite enumerate_from_length.
    + intros i j Hij Hj Hj'.
      assert (Hn : forall n, n < length segments ->
                   nth n (map (clip_path out_dir) (seq 0 (length segments)))
                       EmptyString = clip_path out_dir n).
      { intros n Hn. apply nth_error_nth.
        rewrite nth_error_map, nth_error_seq.
        apply Nat.ltb_lt in Hn. now rewrite Hn. }
      rewrite !Hn by lia. now apply clip_path_lt.
Qed.

Lemma one_clip_per_segment_witness :
  res (synthesize_segments_tts demo "xtts" hello_world demo_out_dir
         None None None empty_fs)
  = Ok [ "/tmp/tmpdub/tts_segments/segment_0000.wav";
         "/tmp/tmpdub/tts_segments/segment_0001.wav";
         "/tmp/tmpdub/tts_segments/segment_0002.wav" ] /\
  tts_calls (trace (synthesize_segments_tts demo "xtts" hello_world
                      demo_out_dir None None None empty_fs))
  = [ EvTTSToFile "Hello" "/tmp/tmpdub/tts_segments/segment_0000.wav"
                  (Some "narrator_a") None None;
      EvTTSToFile EmptyString "/tmp/tmpdub/tts_segments/segment_0001.wav"
                  (Some "narrator_a") None None;
      EvTTSToFile "World" "/tmp/tmpdub/tts_segments/segment_0002.wav"
                  (Some "narrator_a") None None ] /\
  str_lt "/tmp/tmpdub/tts_segments/segment_0000.wav"
         "/tmp/tmpdub/tts_segments/segment_0002.wav" = true.
Proof.
  assert (Hok : res (synthesize_segments_tts demo "xtts" hello_world
                       demo_out_dir None None None empty_fs)
                = Ok [ "/tmp/tmpdub/tts_segments/segment_0000.wav";
                       "/tmp/tmpdub/tts_segments/segment_0001.wav";
                       "/tmp/tmpdub/tts_segments/segment_0002.wav" ])
    by reflexivity.
  destruct (one_clip_per_segment_in_order demo "xtts" hello_world demo_out_dir
              None None None empty_fs _ Hok) as (_ & _ & Hlt).
  split; [exact Hok|]. split; [reflexivity|].
  apply (Hlt 0 2); [lia | simpl; lia | unfold four_digit_indices; lia].
Defined.

(** C6 as stated fails past four digits: with 10001 segments the stage
    returns, and the clip of segment 9999 does not come before the clip of
    segment 10000 in lexical order. *)
Lemma lexical_order_breaks_past_four_digits :
  exists files,
    res long_run = Ok files /\
    four_digit_indices - 1 < four_digit_indices /\
    four_digit_indices < length long_segments /\
    nth (four_digit_indices - 1) files EmptyString
    = "/tmp/tmpdub/tts_segments/segment_9999.wav" /\
    nth four_digit_indices files EmptyString
    = "/tmp/tmpdub/tts_segments/segment_10000.wav" /\
    str_lt (nth (four_digit_indices - 1) files EmptyString)
           (nth four_digit_indices files EmptyString) = false.
Proof.
  assert (H : match res long_run with
              | Ok files =>
                  String.eqb (nth (four_digit_indices - 1) files EmptyString)
                             "/tmp/tmpdub/tts_segments/segment_9999.wav"
                  && String.eqb (nth four_digit_indices files EmptyString)
                                "/tmp/tmpdub/tts_segments/segment_10000.wav"
                  && negb (str_lt (nth (four_digit_indices - 1) files EmptyString)
                                  (nth four_digit_indices files EmptyString))
              | Raise _ => false
              end = true) by (vm_compute; reflexivity).
  destruct (res long_run) as [files|e]; [|discriminate].
  apply andb_prop in H. destruct H as [H H3].
  apply andb_prop in H. destruct H as [H1 H2].
  apply String.eqb_eq in H1, H2. apply negb_true_iff in H3.
  exists files. split; [reflexivity|].
  split; [unfold four_digit_indices; lia|].
  split; [unfold long_segments; rewrite repeat_length; lia|].
  auto.
Qed.

(* ================================================================== *)
(** * Segment Concatenation *)

Lemma split_lines_entry (l rest : string) :
  has_LF l = false ->
  split_lines (l +++ LF +++ rest) = l :: split_lines rest.
Proof.
  induction l as [|c l IH]; intros H.
  - reflexivity.
  - simpl in H. apply orb_false_iff in H. destruct H as [Hc Hl].
    change (String c l +++ LF +++ rest) with (String c (l +++ LF +++ rest)).
    cbn [split_lines]. rewrite Hc, (IH Hl). reflexivity.
Qed.

Section Concatenation.

Variable E : Env.

Lemma concat_list_content_eq (files : list string) :
  concat_list_content E files = join_entries (map (concat_entry E) files).
Proof.
  unfold concat_list_content.
  assert (H : forall written,
             fold_left (fun w file => w +++ concat_entry E file) files written
             = written +++ join_entries (map (concat_entry E) files)).
  { induction files as [|f fs IH]; intros written; simpl.
    - clear. induction written; simpl; congruence.
    - rewrite IH. apply append_assoc. }
  apply H.
Qed.

(** When no resolved path contains a line feed, the directive file has one
    line per input, in list order. *)
Lemma concat_list_one_line_per_input (files : list string) :
  Forall (fun f => has_LF (os_path_abspath E f) = false) files ->
  split_lines (concat_list_content E files)
  = map (fun f => "file '" +++ os_path_abspath E f +++ "'") files.
Proof.
  rewrite concat_list_content_eq.
  induction 1 as [|f fs Hf _ IH]; cbn [map join_entries]; [reflexivity|].
  unfold concat_entry at 1.
  replace (("file '" +++ os_path_abspath E f +++ "'" +++ LF)
           +++ join_entries (map (concat_entry E) fs))
    with (("file '" +++ os_path_abspath E f +++ "'") +++ LF
          +++ join_entries (map (concat_entry E) fs))
    by (now rewrite !append_assoc).
  rewrite split_lines_entry, IH; [reflexivity|].
  simpl. clear -Hf. induction (os_path_abspath E f) as [|c p IHp]; simpl in *.
  - reflexivity.
  - apply orb_false_iff in Hf. destruct Hf as [-> Hp]. now apply IHp.
Qed.

(** C7.  The directive file is written once, with one [file '<path>']
    entry per input, entries in list order and nothing else; the concat
    command is the next thing started, reads that file and copies the
    streams; the stage ends as that command and the removal of the
    directive file end.  Where no resolved path contains a line feed, the
    entries are the lines of the file. *)
Theorem concat_lists_inputs_in_order (files : list string) (output_path : string)
    (fs : FS) :
  let list_path := output_path +++ "_list.txt" in
  let content := concat_list_content E files in
  let o := concatenate_audio E files output_path fs in
  content = join_entries (map (concat_entry E) files) /\
  length (map (concat_entry E) files) = length files /\
  (Forall (fun f => has_LF (os_path_abspath E f) = false) files ->
   split_lines content
   = map (fun f => "file '" +++ os_path_abspath E f +++ "'") files) /\
  match fs list_path with
  | Some Dir =>
      o = mkOutcome (Raise (IsADirectoryError list_path)) fs
                    [EvWrite list_path content]
  | _ =>
      let fs' := fs_set fs list_path (Some (File content)) in
      let o' := (run_cmd E (concat_argv list_path output_path) ;;
                 os_remove list_path)%M fs' in
      fs' list_path = Some (File content) /\
      res o = res o' /\
      (forall p, fs_after o p = fs_after o' p) /\
      exists tail,
        trace o = [ EvWrite list_path content;
                    EvPrint ("[RUN] " +++ str_join " "
                               (concat_argv list_path output_path));
                    EvRun (concat_argv list_path output_path) ] ++ tail /\
        (tail = [] \/ tail = [EvRemove list_path])
  end.
Proof.
  intros list_path content o.
  split; [apply concat_list_content_eq|].
  split; [apply length_map|].
  split; [apply concat_list_one_line_per_input|].
  assert (Hrun : forall fs',
            exists tail,
              trace ((run_cmd E (concat_argv list_path output_path) ;;
                      os_remove list_path)%M fs')
              = [ EvPrint ("[RUN] " +++ str_join " "
                             (concat_argv list_path output_path));
                  EvRun (concat_argv list_path output_path) ] ++ tail /\
              (tail = [] \/ tail = [EvRemove list_path])).
  { intros fs'. unfold run_cmd, bind, print, emit, call. simpl.
    destruct (fst (subprocess_run E _ fs')); simpl.
    - unfold os_remove.
      destruct (snd (subprocess_run E _ fs') list_path) as [[|c]|]; simpl;
        eexists; split; try reflexivity; now right.
    - exists []. split; [reflexivity | now left]. }
  subst o. unfold concatenate_audio. fold list_path content.
  assert (Hw : fs list_path <> Some Dir ->
               write_file list_path content fs
               = mkOutcome (Ok tt) (fs_set fs list_path (Some (File content)))
                           [EvWrite list_path content]).
  { intros Hn. unfold write_file.
    destruct (fs list_path) as [[|c]|]; congruence. }
  assert (Hset : fs_set fs list_path (Some (File content)) list_path
                 = Some (File content))
    by (unfold fs_set; now rewrite String.eqb_refl).
  destruct (Hrun (fs_set fs list_path (Some (File content))))
    as (tail & Htr & Htail).
  destruct (fs list_path) as [[|c]|] eqn:Hfs.
  - rewrite (bind_Raise _ _ _ (IsADirectoryError list_path));
      unfold write_file; rewrite Hfs; reflexivity.
  - cbv zeta. rewrite (bind_Ok _ _ _ tt) by (rewrite Hw; [reflexivity | congruence]).
    rewrite Hw by congruence. simpl.
    split; [exact Hset|]. split; [reflexivity|]. split; [reflexivity|].
    exists tail. split; [|exact Htail]. simpl in Htr. now rewrite Htr.
  - cbv zeta. rewrite (bind_Ok _ _ _ tt) by (rewrite Hw; [reflexivity | congruence]).
    rewrite Hw by congruence. simpl.
    split; [exact Hset|]. split; [reflexivity|]. split; [reflexivity|].
    exists tail. split; [|exact Htail]. simpl in Htr. now rewrite Htr.
Qed.

End Concatenation.

(* ================================================================== *)
(** * The run *)


Lemma os_path_join_relative (a : string) (c : ascii) (b : string) :
  Ascii.eqb c "/" = false ->
  exists c' s', os_path_join a (String c b) = String c' s'.
Proof.
  intros Hc. unfold os_path_join.
  cbn [startswith_slash]. rewrite Hc. destruct a as [|x a]; [eauto|].
  destruct (endswith_slash (String x a)); simpl; eauto.
Qed.

Section Acquisition.

Variable E : Env.

Lemma run_cmd_eq (cmd : list string) fs :
  run_cmd E cmd fs =
  mkOutcome (if fst (subprocess_run E cmd fs) then Ok tt
             else Raise (CalledProcessError cmd))
            (snd (subprocess_run E cmd fs))
            [EvPrint ("[RUN] " +++ str_join " " cmd); EvRun cmd].
Proof.
  unfold run_cmd, bind, print, emit, call. simpl.
  destruct (fst (subprocess_run E cmd fs)); reflexivity.
Qed.

(** With a URL: the fetch, then the test of line 165 on the fetched
    path. *)
Lemma acquire_with_url (args : Args) (d : string) (c : ascii) (u : string) fs :
  url args = Some (String c u) ->
  let target := os_path_join d "input.mp4" in
  let cmd := fetch_argv (String c u) target in
  let r := subprocess_run E cmd fs in
  acquire_source E args d fs =
  mkOutcome (if fst r
             then if is_present (snd r target) then Ok target
                  else Raise (FileNotFoundError "No valid video file provided.")
             else Raise (CalledProcessError cmd))
            (snd r)
            [EvPrint "[INFO] Downloading remote video...";
             EvPrint ("[RUN] " +++ str_join " " cmd); EvRun cmd].
Proof.
  intros Hu target cmd r. subst r cmd target.
  destruct (os_path_join_relative d "i" "nput.mp4" eq_refl) as (c' & s' & Ht).
  unfold acquire_source. rewrite Hu.
  unfold download_remote_video, run_cmd, fetch_argv.
  unfold bind, print, emit, call, ret, raise, os_path_exists.
  rewrite Ht. simpl.
  destruct (subprocess_run E _ fs) as [ok fs2]. simpl.
  destruct ok; simpl; [|reflexivity].
  destruct (is_present (fs2 (String c' s'))); reflexivity.
Qed.

(** Without one: the test of line 165 on the local path. *)
Lemma acquire_without_url (args : Args) (d : string) fs :
  truthy (url args) = false ->
  acquire_source E args d fs =
  mkOutcome (match video args with
             | Some (String _ _ as v) =>
                 if is_present (fs v) then Ok v
                 else Raise (FileNotFoundError "No valid video file provided.")
             | _ => Raise (FileNotFoundError "No valid video file provided.")
             end)
            fs [].
Proof.
  intros Hu. unfold acquire_source.
  destruct (url args) as [[|c u]|]; try discriminate;
    unfold bind, ret, raise, os_path_exists; simpl;
    destruct (video args) as [[|c' v]|]; simpl; try reflexivity;
    destruct (is_present (fs (String c' v))); reflexivity.
Qed.

(** What the acquisition returns is the chosen source. *)
Lemma acquire_source_chosen (args : Args) fs p :
  res (acquire_source E args (workspace E fs) (fs_at_start E fs)) = Ok p ->
  chosen_source E args fs = Some p.
Proof.
  unfold chosen_source.
  destruct (url args) as [[|c u]|] eqn:Hu.
  - rewrite acquire_without_url by (now rewrite Hu). simpl.
    destruct (video args) as [[|c' v]|]; try discriminate.
    destruct (is_present _); [|discriminate]. now intros [= ->].
  - rewrite (acquire_with_url args _ c u _ Hu). simpl.
    destruct (fst _); [|discriminate].
    destruct (is_present _); [|discriminate]. now intros [= ->].
  - rewrite acquire_without_url by (now rewrite Hu). simpl.
    destruct (video args) as [[|c' v]|]; try discriminate.
    destruct (is_present _); [|discriminate]. now intros [= ->].
Qed.

(** The acquisition prints and, at most, starts the fetch tool. *)
Lemma acquire_source_no_later_stage (args : Args) (d : string) fs :
  Forall (fun ev => is_later_stage ev = false /\ video_input ev = None)
         (trace (acquire_source E args d fs)).
Proof.
  destruct (url args) as [[|c u]|] eqn:Hu.
  - rewrite acquire_without_url by (now rewrite Hu). constructor.
  - rewrite (acquire_with_url args _ c u _ Hu). repeat constructor.
  - rewrite acquire_without_url by (now rewrite Hu). constructor.
Qed.


End Acquisition.

Section Stages.

Variable E : Env.
Variable P : Event -> Prop.

Lemma emits_run_cmd (cmd : list string) :
  P (EvPrint ("[RUN] " +++ str_join " " cmd)) -> P (EvRun cmd) ->
  emits P (run_cmd E cmd).
Proof.
  intros Hp Hr fs. rewrite run_cmd_eq. simpl. repeat constructor; assumption.
Qed.

Lemma emits_synthesis_loop tts out_dir speaker language speaker_wav items acc :
  (forall text path, P (EvTTSToFile text path speaker language speaker_wav)) ->
  emits P (synthesis_loop E tts out_dir speaker language speaker_wav items acc).
Proof.
  intros H fs.
  pose proof (synthesis_loop_only_calls E out_dir speaker language speaker_wav
                items tts acc fs) as Hc.
  eapply Forall_impl; [|exact Hc]. intros ev (text & path & ->). apply H.
Qed.

(** Every event that is not a process. *)
Hypothesis P_other : forall ev, is_run ev = false -> P ev.

Lemma emits_transcribe_audio model_name audio_path language :
  emits P (transcribe_audio E model_name audio_path language).
Proof.
  unfold transcribe_audio. apply emits_bind.
  - apply emits_call. now apply P_other.
  - intros model. apply emits_call. now apply P_other.
Qed.

Lemma emits_synthesize model_name segments out_dir voice language speaker_wav :
  emits P (synthesize_segments_tts E model_name segments out_dir
                                   voice language speaker_wav).
Proof.
  unfold synthesize_segments_tts. apply emits_bind.
  - apply emits_call. now apply P_other.
  - intros tts. apply emits_bind.
    + apply resolve_speaker_prints_only. intros l. now apply P_other.
    + intros s. apply emits_synthesis_loop. intros. now apply P_other.
Qed.

Lemma emits_concatenate_audio files output_path :
  P (EvRun (concat_argv (output_path +++ "_list.txt") output_path)) ->
  emits P (concatenate_audio E files output_path).
Proof.
  intros Hrun. unfold concatenate_audio. apply emits_bind.
  - apply emits_write_file. now apply P_other.
  - intros _. apply emits_bind.
    + apply emits_run_cmd; [now apply P_other | exact Hrun].
    + intros _. apply emits_os_remove. now apply P_other.
Qed.

(** The stages after the acquisition start three processes: extraction,
    concatenation, remux. *)
Lemma emits_dub_stages (args : Args) (d video_path : string) :
  P (EvRun (extract_argv video_path (os_path_join d "audio.wav"))) ->
  P (EvRun (concat_argv (os_path_join d "tts_full.wav" +++ "_list.txt")
                        (os_path_join d "tts_full.wav"))) ->
  P (EvRun (remux_argv video_path (os_path_join d "tts_full.wav")
                       (output args))) ->
  emits P (dub_stages E args d video_path).
Proof.
  intros Hx Hc Hr. unfold dub_stages, extract_audio, combine_audio_video.
  repeat first
    [ apply emits_run_cmd; [now apply P_other | first [exact Hx | exact Hr]]
    | apply emits_print; now apply P_other
    | apply emits_transcribe_audio
    | apply emits_synthesize
    | apply emits_os_makedirs; now apply P_other
    | apply emits_concatenate_audio; exact Hc
    | apply emits_bind; [|intros ?] ].
Qed.

End Stages.

Section Run.

Variable E : Env.

(** [main] is the creation of the workspace, the [try] block, and the
    cleanup, which runs whatever the block did. *)
Lemma main_eq (args : Args) fs :
  let d := workspace E fs in
  let b := main_body E args d (fs_at_start E fs) in
  let c := shutil_rmtree d (fs_after b) in
  main E args fs =
  mkOutcome (match res c with Ok _ => res b | Raise e => Raise e end)
            (fs_after c)
            (EvMkdtemp d :: trace b ++ [cleanup_line; EvRmtree d]).
Proof.
  intros d b c. subst c b d.
  unfold main, tempfile_mkdtemp, try_finally, bind, print, emit.
  unfold shutil_rmtree, workspace, fs_at_start, cleanup_line. simpl.
  destruct (fs_after (main_body _ _ _ _) _) as [[|x]|]; reflexivity.
Qed.

(** The cleanup leaves no directory at the workspace path. *)
Lemma rmtree_removes (d : string) fs :
  let c := shutil_rmtree d fs in
  fs_after c d <> Some Dir /\
  ((forall p, in_tree d p = true -> fs_after c p = None) \/
   res c = Raise (FileNotFoundError d) \/
   res c = Raise (NotADirectoryError d)).
Proof.
  unfold shutil_rmtree. destruct (fs d) as [[|x]|] eqn:Hd; simpl.
  - split.
    + unfold fs_remove_tree, in_tree. rewrite String.eqb_refl. discriminate.
    + left. intros p Hp. unfold fs_remove_tree. now rewrite Hp.
  - split; [congruence | auto].
  - split; [congruence | auto].
Qed.

(** C2.  Whatever the [try] block does, the run ends with the removal of
    the workspace: [shutil.rmtree] is the last thing it does, no directory
    is left at the workspace path, and nothing is left at or below that
    path unless [shutil.rmtree] itself raised, which it does only when a
    tool has already taken the directory away. *)
Theorem workspace_removed_on_every_exit (args : Args) (fs : FS) :
  let d := workspace E fs in
  let o := main E args fs in
  fs_after o d <> Some Dir /\
  (exists pre, trace o = EvMkdtemp d :: pre ++ [cleanup_line; EvRmtree d]) /\
  ((forall p, in_tree d p = true -> fs_after o p = None) \/
   res o = Raise (FileNotFoundError d) \/
   res o = Raise (NotADirectoryError d)).
Proof.
  intros d o. subst o. rewrite main_eq. fold d. simpl.
  destruct (rmtree_removes d (fs_after (main_body E args d (fs_at_start E fs))))
    as (Hd & Htree).
  split; [exact Hd|]. split; [eexists; reflexivity|].
  destruct Htree as [H | [H | H]]; [now left | right; left | right; right];
    now rewrite H.
Qed.



End Run.

(* ------------------------------------------------------------------ *)
(** ** The source video *)

Lemma video_inputs_Forall (Q : string -> Prop) (tr : list Event) :
  Forall (fun ev => forall p, video_input ev = Some p -> Q p) tr ->
  Forall Q (video_inputs tr).
Proof.
  induction 1 as [|ev tr Hev _ IH]; simpl; [constructor|].
  destruct (video_input ev) as [p|] eqn:Hp; [|exact IH].
  constructor; [now apply Hev | exact IH].
Qed.

Lemma is_run_video_input (ev : Event) :
  is_run ev = false -> video_input ev = None.
Proof. destruct ev; simpl; intros H; try reflexivity; discriminate. Qed.

Section Source.

Variable E : Env.

(** Every video the codec tool is given as first input is the chosen
    source. *)
Lemma main_video_inputs (args : Args) fs :
  Forall (fun p => chosen_source E args fs = Some p)
         (video_inputs (trace (main E args fs))).
Proof.
  apply video_inputs_Forall. rewrite main_eq. simpl.
  set (d := workspace E fs). set (fs1 := fs_at_start E fs).
  constructor; [discriminate|]. apply Forall_app. split;
    [|repeat constructor; discriminate].
  unfold main_body.
  destruct (res (acquire_source E args d fs1)) as [p|e] eqn:Ha.
  - rewrite (bind_Ok _ _ _ _ Ha). simpl.
    pose proof (acquire_source_chosen E args fs p Ha) as Hp.
    apply Forall_app. split.
    + eapply Forall_impl; [|apply acquire_source_no_later_stage].
      intros ev [_ H] q Hq. congruence.
    + apply emits_dub_stages.
      * intros ev Hev q Hq. rewrite (is_run_video_input ev Hev) in Hq.
        discriminate.
      * intros q [= <-]. exact Hp.
      * intros q Hq. discriminate.
      * intros q [= <-]. exact Hp.
  - rewrite (bind_Raise _ _ _ _ Ha). simpl.
    eapply Forall_impl; [|apply acquire_source_no_later_stage].
    intros ev [_ H] q Hq. congruence.
Qed.

(** X13.  Without a URL the local path is the source: every video the
    codec tool reads is the [--video] path. *)
Lemma local_path_is_source_without_url (args : Args) fs :
  truthy (url args) = false ->
  Forall (fun p => video args = Some p)
         (video_inputs (trace (main E args fs))).
Proof.
  intros Hu. pose proof (main_video_inputs args fs) as H.
  unfold chosen_source in H.
  destruct (url args) as [[|c u]|]; try discriminate; exact H.
Qed.

(** C1 (amended).  When a URL is given, the run starts the fetch into
    [input.mp4] of the workspace, every video the codec tool then reads is
    that fetched file, and the local path plays no part: the run is the
    same whatever [--video] holds. *)
Theorem url_takes_precedence_over_local_path (args : Args) (u : string) (fs : FS) :
  url args = Some u ->
  u <> EmptyString ->
  let fetched := os_path_join (workspace E fs) "input.mp4" in
  let o := main E args fs in
  In (EvRun (fetch_argv u fetched)) (trace o) /\
  Forall (fun p => p = fetched) (video_inputs (trace o)) /\
  (forall v, main E (with_video args v) fs = o).
Proof.
  intros Hu Hne fetched o. destruct u as [|c u]; [congruence|].
  split; [|split].
  - subst o. rewrite main_eq. cbn [trace]. right. apply in_or_app. left.
    assert (Ha : In (EvRun (fetch_argv (String c u) fetched))
                    (trace (acquire_source E args (workspace E fs)
                                           (fs_at_start E fs)))).
    { rewrite (acquire_with_url E args _ c u _ Hu). cbn [trace].
      right. right. left. reflexivity. }
    unfold main_body.
    destruct (res (acquire_source E args (workspace E fs) (fs_at_start E fs)))
      as [p|e] eqn:Hres.
    + rewrite (bind_Ok _ _ _ _ Hres). cbn [trace].
      apply in_or_app. now left.
    + rewrite (bind_Raise _ _ _ _ Hres). exact Ha.
  - pose proof (main_video_inputs args fs) as H.
    unfold chosen_source in H. rewrite Hu in H.
    eapply Forall_impl; [|exact H]. intros p [= <-]. reflexivity.
  - intros v. subst o. unfold main, main_body, acquire_source, dub_stages.
    simpl. rewrite Hu. reflexivity.
Qed.

End Source.

(* ------------------------------------------------------------------ *)
(** ** The remux of a successful run *)


Section Remux.

Variable E : Env.



End Remux.

Section RemuxClaim.

Variable E : Env.


End RemuxClaim.

(* ================================================================== *)
(** * One voice per run *)

Section OneVoice.

Variable E : Env.
Variables (language speaker_wav : option string).

Local Abbreviation quiet := (fun ev : Event => is_tts_call ev = false).
Local Abbreviation uniform := (one_speaker language speaker_wav).

Lemma quiet_uniform (tr : list Event) : Forall quiet tr -> uniform tr.
Proof.
  intros H. exists None. unfold tts_calls. rewrite (filter_none _ _ H).
  constructor.
Qed.

Lemma uniform_app_quiet_l (tr1 tr2 : list Event) :
  Forall quiet tr1 -> uniform tr2 -> uniform (tr1 ++ tr2).
Proof.
  intros H1 (s & H2). exists s. unfold tts_calls in *.
  now rewrite filter_app, (filter_none _ _ H1).
Qed.

Lemma uniform_app_quiet_r (tr1 tr2 : list Event) :
  uniform tr1 -> Forall quiet tr2 -> uniform (tr1 ++ tr2).
Proof.
  intros (s & H1) H2. exists s. unfold tts_calls in *.
  now rewrite filter_app, (filter_none _ _ H2), app_nil_r.
Qed.

Lemma uniform_bind_quiet_l {A B} (m : M A) (k : A -> M B) fs :
  emits quiet m ->
  (forall a fs', uniform (trace (k a fs'))) ->
  uniform (trace (bind m k fs)).
Proof.
  intros Hm Hk. unfold bind. destruct (res (m fs)) as [a|e]; cbn [trace].
  - apply uniform_app_quiet_l; [apply Hm | apply Hk].
  - apply quiet_uniform, Hm.
Qed.

Lemma uniform_bind_quiet_r {A B} (m : M A) (k : A -> M B) fs :
  (forall fs', uniform (trace (m fs'))) ->
  (forall a, emits quiet (k a)) ->
  uniform (trace (bind m k fs)).
Proof.
  intros Hm Hk. unfold bind. destruct (res (m fs)) as [a|e]; cbn [trace].
  - apply uniform_app_quiet_r; [apply Hm | apply Hk].
  - apply Hm.
Qed.

(** The Synthesis Stage uses one speaker. *)
Lemma synthesize_uniform model_name segments out_dir voice fs :
  uniform (trace (synthesize_segments_tts E model_name segments out_dir
                                          voice language speaker_wav fs)).
Proof.
  destruct (stage_shape E model_name segments out_dir voice language
                        speaker_wav fs)
    as [[_ Ho] | (tts & s & tr & k & _ & _ & _ & _ & H)].
  - rewrite Ho. apply quiet_uniform. repeat constructor.
  - cbv zeta in H. destruct H as (_ & Hcalls & _).
    exists s. rewrite Hcalls. apply Forall_forall. intros ev Hev.
    apply In_firstn in Hev. apply in_map_iff in Hev.
    destruct Hev as ([i sg] & <- & _). unfold call_of. simpl. eauto.
Qed.

End OneVoice.

Section OneVoicePerRun.

Variable E : Env.

Local Abbreviation quiet := (fun ev : Event => is_tts_call ev = false).

Lemma quiet_run_cmd (cmd : list string) : emits quiet (run_cmd E cmd).
Proof. apply emits_run_cmd; reflexivity. Qed.

Lemma quiet_concatenate_audio files output_path :
  emits quiet (concatenate_audio E files output_path).
Proof.
  unfold concatenate_audio.
  apply emits_bind; [apply emits_write_file; reflexivity | intros _].
  apply emits_bind; [apply quiet_run_cmd | intros _].
  apply emits_os_remove. reflexivity.
Qed.

Lemma quiet_transcribe_audio model_name audio_path language :
  emits quiet (transcribe_audio E model_name audio_path language).
Proof.
  unfold transcribe_audio.
  apply emits_bind; [apply emits_call; reflexivity | intros model].
  apply emits_call. reflexivity.
Qed.

(** X12.  In every run, successful or not, all engine calls carry one
    speaker. *)
Lemma one_speaker_per_run (args : Args) (fs : FS) :
  one_speaker (language args) (speaker_wav args) (trace (main E args fs)).
Proof.
  rewrite main_eq. cbn [trace].
  apply (uniform_app_quiet_l _ _ [EvMkdtemp (workspace E fs)]);
    [repeat constructor|].
  apply uniform_app_quiet_r; [|repeat constructor].
  unfold main_body. apply uniform_bind_quiet_l.
  - intros fs'. eapply Forall_impl; [|apply acquire_source_no_later_stage].
    intros ev [H _]. destruct ev; try reflexivity; discriminate.
  - intros video_path fs'. unfold dub_stages, extract_audio.
    apply uniform_bind_quiet_l; [apply emits_print; reflexivity | intros _ fs1].
    apply uniform_bind_quiet_l; [apply quiet_run_cmd | intros _ fs2].
    apply uniform_bind_quiet_l; [apply emits_print; reflexivity | intros _ fs3].
    apply uniform_bind_quiet_l; [apply quiet_transcribe_audio | intros segs fs4].
    apply uniform_bind_quiet_l; [apply emits_print; reflexivity | intros _ fs5].
    apply uniform_bind_quiet_l; [apply emits_os_makedirs; reflexivity | intros _ fs6].
    apply uniform_bind_quiet_r; [intros fs7; apply synthesize_uniform|].
    intros files.
    apply emits_bind; [apply emits_print; reflexivity | intros _].
    apply emits_bind; [apply quiet_concatenate_audio | intros _].
    apply emits_bind; [apply emits_print; reflexivity | intros _].
    apply emits_bind; [apply quiet_run_cmd | intros _].
    apply emits_print. reflexivity.
Qed.

End OneVoicePerRun.

(* ================================================================== *)
(** * The scenarios, run *)

(** The scenario of the spec: voice [en_us_female] against the roster
    [narrator_a, narrator_b]. *)
Lemma voice_mismatch_scenario :
  fst (TTS_new demo "xtts" empty_fs) = Some tt /\
  tts_speakers demo tt = Some narrators /\
  "en_us_female" <> EmptyString /\
  in_roster "en_us_female" narrators = false /\
  res (resolve_speaker demo tt (Some "en_us_female") empty_fs)
  = Ok (Some "narrator_a") /\
  In (warn_line "en_us_female" "narrator_a")
     (trace (synthesize_segments_tts demo "xtts" hello_world demo_out_dir
               (Some "en_us_female") None None empty_fs)) /\
  is_failure (res (synthesize_segments_tts demo "xtts" hello_world demo_out_dir
                     (Some "en_us_female") None None empty_fs)) = false.
Proof.
  assert (Hne : "en_us_female" <> EmptyString) by discriminate.
  destruct (voice_mismatch_falls_back_to_first demo "xtts" hello_world
              demo_out_dir None None "en_us_female" tt "narrator_a"
              ["narrator_b"] empty_fs eq_refl eq_refl Hne eq_refl)
    as (H1 & H2 & H3 & _).
  split; [reflexivity|]. split; [reflexivity|]. split; [exact Hne|].
  split; [reflexivity|]. split; [exact H1|]. split.
  - rewrite H2. right. apply in_or_app. right. left. reflexivity.
  - rewrite H3. reflexivity.
Defined.

(** The same roster, no voice asked for. *)
Lemma no_voice_scenario :
  fst (TTS_new demo "xtts" empty_fs) = Some tt /\
  tts_speakers demo tt = Some narrators /\
  truthy None = false /\
  res (resolve_speaker demo tt None empty_fs) = Ok (Some "narrator_a") /\
  In (info_line "narrator_a")
     (trace (synthesize_segments_tts demo "xtts" hello_world demo_out_dir
               None None None empty_fs)) /\
  Forall (fun ev => is_warning ev = false)
         (trace (synthesize_segments_tts demo "xtts" hello_world demo_out_dir
                   None None None empty_fs)).
Proof.
  destruct (no_voice_defaults_to_first demo "xtts" hello_world demo_out_dir
              None None None tt "narrator_a" ["narrator_b"] empty_fs
              eq_refl eq_refl eq_refl)
    as (H1 & H2 & H3 & _).
  split; [reflexivity|]. split; [reflexivity|]. split; [reflexivity|].
  split; [exact H1|]. split; [|exact H3].
  rewrite H2. right. apply in_or_app. right. left. reflexivity.
Defined.

(** C1 as stated fails: with both [--video] and [--url], the local file
    present, the run succeeds and the codec tool never reads the local
    file; it reads the fetched one. *)
Lemma local_path_does_not_take_precedence :
  video both_args = Some talk /\
  truthy (url both_args) = true /\
  fs_at_start demo fs_with_talk talk = Some (File "video") /\
  res (main demo both_args fs_with_talk) = Ok tt /\
  video_inputs (trace (main demo both_args fs_with_talk))
  = ["/tmp/tmpdub/input.mp4"; "/tmp/tmpdub/input.mp4"] /\
  ~ In talk (video_inputs (trace (main demo both_args fs_with_talk))).
Proof.
  assert (H : video_inputs (trace (main demo both_args fs_with_talk))
              = ["/tmp/tmpdub/input.mp4"; "/tmp/tmpdub/input.mp4"])
    by (vm_compute; reflexivity).
  repeat split; try (vm_compute; reflexivity).
  rewrite H. intros [Hin | [Hin | []]]; discriminate.
Qed.

Lemma url_takes_precedence_witness :
  url both_args = Some "https://example.org/v" /\
  "https://example.org/v" <> EmptyString /\
  In (EvRun (fetch_argv "https://example.org/v" "/tmp/tmpdub/input.mp4"))
     (trace (main demo both_args fs_with_talk)) /\
  Forall (fun p => p = "/tmp/tmpdub/input.mp4")
         (video_inputs (trace (main demo both_args fs_with_talk))) /\
  main demo url_args fs_with_talk = main demo both_args fs_with_talk.
Proof.
  assert (Hne : "https://example.org/v" <> EmptyString) by discriminate.
  destruct (url_takes_precedence_over_local_path demo both_args
              "https://example.org/v" fs_with_talk eq_refl Hne)
    as (H1 & H2 & H3).
  split; [reflexivity|]. split; [exact Hne|].
  split; [exact H1|]. split; [exact H2|]. exact (H3 None).
Defined.




(* ================================================================== *)
(** * Further properties of the script *)

(* ------------------------------------------------------------------ *)
(** ** What a run does, and with what *)

Section RunAlphabet.

Variable E : Env.
Variable args : Args.
Variable fs : FS.

Local Abbreviation d := (workspace E fs).
Local Abbreviation allowed := (run_event E args fs).

Lemma allowed_synthesize (segments : list Segment) :
  emits allowed
        (synthesize_segments_tts E (tts_model args) segments
           (os_path_join d "tts_segments") (voice args) (language args)
           (speaker_wav args)).
Proof.
  unfold synthesize_segments_tts. apply emits_bind.
  - apply emits_call. constructor.
  - intros tts. apply emits_bind.
    + apply resolve_speaker_prints_only. constructor.
    + intros s fs'.
      destruct (synthesis_loop_spec E (os_path_join d "tts_segments") s
                  (language args) (speaker_wav args) (enumerate segments)
                  tts [] fs') as (k & _ & Htr & _).
      rewrite Htr. apply Forall_forall. intros ev Hev.
      apply In_firstn in Hev. apply in_map_iff in Hev.
      destruct Hev as ([i sg] & <- & _). unfold call_of. cbn [fst snd].
      apply (re_call E args fs).
Qed.

Lemma allowed_dub_stages (src : string) :
  chosen_source E args fs = Some src ->
  emits allowed (dub_stages E args d src).
Proof.
  intros Hsrc. unfold dub_stages, extract_audio, combine_audio_video.
  apply emits_bind; [apply emits_print; constructor | intros _].
  apply emits_bind;
    [apply emits_run_cmd; [constructor | now apply re_extract] | intros _].
  apply emits_bind; [apply emits_print; constructor | intros _].
  apply emits_bind.
  { unfold transcribe_audio. apply emits_bind.
    - apply emits_call. constructor.
    - intros model. apply emits_call. apply re_transcribe. }
  intros segments.
  apply emits_bind; [apply emits_print; constructor | intros _].
  apply emits_bind; [apply emits_os_makedirs; constructor | intros _].
  apply emits_bind; [apply allowed_synthesize | intros files].
  apply emits_bind; [apply emits_print; constructor | intros _].
  apply emits_bind.
  { unfold concatenate_audio. apply emits_bind.
    - apply emits_write_file. constructor.
    - intros _. apply emits_bind.
      + apply emits_run_cmd; constructor.
      + intros _. apply emits_os_remove. constructor. }
  intros _.
  apply emits_bind; [apply emits_print; constructor | intros _].
  apply emits_bind;
    [apply emits_run_cmd; [constructor | now apply re_remux] | intros _].
  apply emits_print. constructor.
Qed.

Lemma allowed_main_body :
  Forall allowed (trace (main_body E args d (fs_at_start E fs))).
Proof.
  unfold main_body.
  assert (Ha : Forall allowed
                 (trace (acquire_source E args d (fs_at_start E fs)))).
  { destruct (url args) as [[|c u]|] eqn:Hu.
    - rewrite acquire_without_url by (now rewrite Hu). constructor.
    - rewrite (acquire_with_url E args _ c u _ Hu). cbn [trace].
      constructor; [constructor|]. constructor; [constructor|].
      constructor; [now apply re_fetch | constructor].
    - rewrite acquire_without_url by (now rewrite Hu). constructor. }
  destruct (res (acquire_source E args d (fs_at_start E fs))) as [src|e] eqn:Hr.
  - rewrite (bind_Ok _ _ _ _ Hr). cbn [trace]. apply Forall_app. split.
    + exact Ha.
    + apply allowed_dub_stages. now apply acquire_source_chosen.
  - rewrite (bind_Raise _ _ _ _ Hr). exact Ha.
Qed.

(** X1.  Every event of a run is one of [run_event]: the run starts no
    other process, calls the engines with no other arguments, and itself
    writes, creates and removes nothing but the directive file, the clip
    directory and the workspace. *)
Theorem run_does_nothing_else :
  Forall allowed (trace (main E args fs)).
Proof.
  rewrite main_eq. cbn [trace].
  constructor; [apply re_mkdtemp|].
  apply Forall_app. split; [apply allowed_main_body|].
  constructor; [apply re_print|].
  constructor; [apply re_rmtree | constructor].
Qed.

(** X2.  Whisper is given a language only when [--language] is non-empty,
    while every synthesis call is given [--language] as it was typed, the
    empty string included. *)
Theorem language_reaches_the_engines :
  Forall (fun ev =>
            match ev with
            | EvTranscribe _ l => l = whisper_hint (language args)
            | EvTTSToFile _ _ _ l w =>
                l = language args /\ w = speaker_wav args
            | _ => True
            end)
         (trace (main E args fs)).
Proof.
  rewrite main_eq. cbn [trace].
  constructor; [exact I|]. apply Forall_app. split;
    [|repeat constructor].
  eapply Forall_impl; [|apply allowed_main_body].
  intros ev Hev. destruct Hev; auto.
Qed.

End RunAlphabet.

(* ------------------------------------------------------------------ *)
(** ** The order of the processes *)


Section Order.

Variable E : Env.

Local Abbreviation silent := (fun ev : Event => is_run ev = false).











End Order.

(* ------------------------------------------------------------------ *)
(** ** How a run ends *)

Section Ending.

Variable E : Env.

(** X4.  A run returns exactly when its [try] block returns and the workspace
    is still a directory for [shutil.rmtree] to remove; and whenever the
    workspace is still a directory, the run ends as the block ended: the
    block's exception surfaces unchanged. *)
Theorem run_ends_as_its_block (args : Args) (fs : FS) :
  let d := workspace E fs in
  let b := main_body E args d (fs_at_start E fs) in
  (res (main E args fs) = Ok tt <->
   res b = Ok tt /\ fs_after b d = Some Dir) /\
  (fs_after b d = Some Dir -> res (main E args fs) = res b) /\
  (fs_after b d = None ->
   res (main E args fs) = Raise (FileNotFoundError d)).
Proof.
  intros d b. rewrite main_eq. fold d b. cbn [res].
  unfold shutil_rmtree.
  destruct (fs_after b d) as [[|x]|] eqn:Hd; cbn [res].
  - split; [|split]; [|reflexivity|discriminate].
    split; [intros H; now split | now intros [H _]].
  - split; [|split]; [|discriminate|discriminate].
    split; [discriminate | intros [_ H]; discriminate].
  - split; [|split]; [|discriminate|reflexivity].
    split; [discriminate | intros [_ H]; discriminate].
Qed.

(** X5.  When the extraction command exits non-zero, the block raises that
    command's failure and no engine is ever called: neither model is
    loaded. *)
Theorem extraction_failure_stops_the_run (args : Args) (fs : FS) (src : string) :
  let d := workspace E fs in
  let a := acquire_source E args d (fs_at_start E fs) in
  let cmd := extract_argv src (os_path_join d "audio.wav") in
  res a = Ok src ->
  fst (subprocess_run E cmd (fs_after a)) = false ->
  res (main_body E args d (fs_at_start E fs)) = Raise (CalledProcessError cmd) /\
  Forall (fun ev => is_engine_event ev = false) (trace (main E args fs)) /\
  exists pre, trace (main E args fs)
              = pre ++ [EvRun cmd; cleanup_line; EvRmtree d].
Proof.
  intros d a cmd Ha Hx.
  assert (Hdub : dub_stages E args d src (fs_after a)
                 = mkOutcome (Raise (CalledProcessError cmd))
                             (snd (subprocess_run E cmd (fs_after a)))
                             [EvPrint "[INFO] Extracting audio...";
                              EvPrint ("[RUN] " +++ str_join " " cmd);
                              EvRun cmd]).
  { assert (Hrun : run_cmd E cmd (fs_after a)
                   = mkOutcome (Raise (CalledProcessError cmd))
                               (snd (subprocess_run E cmd (fs_after a)))
                               [EvPrint ("[RUN] " +++ str_join " " cmd);
                                EvRun cmd])
      by (rewrite run_cmd_eq, Hx; reflexivity).
    unfold dub_stages, extract_audio.
    change [ "ffmpeg"; "-y"; "-i"; src; "-vn"; "-acodec"; "pcm_s16le";
             "-ar"; "16000"; "-ac"; "1"; os_path_join d "audio.wav" ]
      with cmd.
    rewrite (bind_Ok (print "[INFO] Extracting audio...") _ (fs_after a) tt
                     eq_refl).
    cbn [print emit res fs_after trace].
    rewrite (bind_Raise _ _ _ (CalledProcessError cmd));
      rewrite Hrun; reflexivity. }
  assert (Hb : main_body E args d (fs_at_start E fs)
               = mkOutcome (Raise (CalledProcessError cmd))
                           (snd (subprocess_run E cmd (fs_after a)))
                           (trace a ++
                            [EvPrint "[INFO] Extracting audio...";
                             EvPrint ("[RUN] " +++ str_join " " cmd);
                             EvRun cmd])).
  { unfold main_body. fold a. rewrite (bind_Ok _ _ _ _ Ha). fold a.
    now rewrite Hdub. }
  split; [now rewrite Hb|].
  rewrite main_eq. fold d. rewrite Hb. cbn [trace]. split.
  - constructor; [reflexivity|]. apply Forall_app. split;
      [|repeat constructor].
    apply Forall_app. split; [|repeat constructor].
    eapply Forall_impl;
      [|apply (acquire_source_no_later_stage E args d (fs_at_start E fs))].
    intros ev [H _]. destruct ev; try reflexivity; discriminate.
  - exists (EvMkdtemp d :: trace a ++
            [EvPrint "[INFO] Extracting audio...";
             EvPrint ("[RUN] " +++ str_join " " cmd)]).
    cbn [List.app]. rewrite <- !app_assoc. reflexivity.
Qed.

End Ending.

(* ------------------------------------------------------------------ *)
(** ** The other cases of the speaker policy *)

Section Policy.

Variable E : Env.
Variables (model_name : string) (segments : list Segment) (out_dir : string).
Variables (language speaker_wav : option string).

(** X6.  When the engine has no roster, a requested voice is dropped without
    a word: nothing is printed, and every engine call is made without a
    speaker. *)
Theorem no_roster_ignores_voice
    (voice : option string) (tts : TTS E) (fs : FS) :
  fst (TTS_new E model_name fs) = Some tts ->
  (tts_speakers E tts = None \/ tts_speakers E tts = Some []) ->
  exists k,
    k <= length segments /\
    trace (synthesize_segments_tts E model_name segments out_dir
                                   voice language speaker_wav fs)
    = EvTTSInit model_name
      :: firstn k (map (call_of out_dir None language speaker_wav)
                       (enumerate segments)).
Proof.
  intros Hnew Hroster.
  pose proof (fun fs' => resolve_speaker_no_roster E tts voice fs' Hroster)
    as Hres.
  rewrite (synthesize_with_engine E model_name segments out_dir voice
             language speaker_wav fs tts None [] Hnew Hres).
  cbn [trace List.app].
  destruct (synthesis_loop_spec E out_dir None language speaker_wav
              (enumerate segments) tts [] (snd (TTS_new E model_name fs)))
    as (k & Hk & Htr & _).
  exists k. split.
  - unfold enumerate in Hk. now rewrite enumerate_from_length in Hk.
  - now rewrite Htr.
Qed.

(** X7.  When the requested voice is in the roster it is the speaker of every
    engine call, and after the roster nothing more is printed: neither the
    warning nor the default notice. *)
Theorem roster_voice_is_used
    (v : string) (tts : TTS E) (first : string) (rest : list string) (fs : FS) :
  fst (TTS_new E model_name fs) = Some tts ->
  tts_speakers E tts = Some (first :: rest) ->
  v <> EmptyString ->
  in_roster v (first :: rest) = true ->
  exists k,
    k <= length segments /\
    trace (synthesize_segments_tts E model_name segments out_dir
                                   (Some v) language speaker_wav fs)
    = EvTTSInit model_name
      :: roster_lines (first :: rest)
      ++ firstn k (map (call_of out_dir (Some v) language speaker_wav)
                       (enumerate segments)).
Proof.
  intros Hnew Hr Hv Hin. destruct v as [|c v]; [congruence|].
  pose proof (fun fs' => resolve_speaker_found E tts first rest c v fs' Hr Hin)
    as Hres.
  rewrite (synthesize_with_engine E model_name segments out_dir
             (Some (String c v)) language speaker_wav fs tts _ _ Hnew Hres).
  cbn [trace].
  destruct (synthesis_loop_spec E out_dir (Some (String c v)) language
              speaker_wav (enumerate segments) tts []
              (snd (TTS_new E model_name fs)))
    as (k & Hk & Htr & _).
  exists k. split.
  - unfold enumerate in Hk. now rewrite enumerate_from_length in Hk.
  - now rewrite Htr.
Qed.

End Policy.

(* ------------------------------------------------------------------ *)
(** ** Clip names never collide *)

Lemma length_append (a b : string) :
  String.length (a +++ b) = String.length a + String.length b.
Proof. induction a as [|c a IH]; simpl; [reflexivity | now rewrite IH]. Qed.

Lemma append_cancel_l (p a b : string) : p +++ a = p +++ b -> a = b.
Proof.
  induction p as [|c p IH]; simpl; [auto|]. intros [= H]. now apply IH.
Qed.

Lemma append_cancel_r (s a b : string) : a +++ s = b +++ s -> a = b.
Proof.
  revert b. induction a as [|c a IH]; intros [|c' b] H; simpl in H.
  - reflexivity.
  - apply (f_equal String.length) in H. simpl in H.
    rewrite length_append in H. lia.
  - apply (f_equal String.length) in H. simpl in H.
    rewrite length_append in H. lia.
  - injection H as -> H. f_equal. now apply IH.
Qed.

Lemma to_uint_nonnil (i : nat) : Nat.to_uint i <> Nil.
Proof.
  pose proof (DecimalNat.Unsigned.to_of (Nat.to_uint i)) as H.
  rewrite DecimalNat.Unsigned.of_to in H. rewrite H.
  apply DecimalFacts.unorm_nonnil.
Qed.

Lemma of_uint_D0 (u : uint) : Nat.of_uint (D0 u) = Nat.of_uint u.
Proof.
  rewrite <- (DecimalNat.Unsigned.of_uint_norm (D0 u)).
  rewrite <- (DecimalNat.Unsigned.of_uint_norm u). reflexivity.
Qed.

Lemma index_of_zeros (k : nat) (s : string) :
  index_of_digits (zeros k +++ s) = index_of_digits s.
Proof.
  unfold index_of_digits. induction k as [|k IH]; [reflexivity|].
  cbn [zeros String.append NilEmpty.uint_of_string].
  destruct (NilEmpty.uint_of_string (zeros k +++ s)) as [u|] eqn:Hu;
    destruct (NilEmpty.uint_of_string s) as [u'|] eqn:Hu';
    simpl in *; try discriminate; try reflexivity.
  rewrite of_uint_D0. exact IH.
Qed.

(** The index can be read back from its formatted form, whatever its
    size. *)
Lemma index_of_format_04d (i : nat) : index_of_digits (format_04d i) = Some i.
Proof.
  unfold format_04d. rewrite index_of_zeros. unfold index_of_digits, decimal.
  assert (H : NilZero.string_of_uint (Nat.to_uint i)
              = NilEmpty.string_of_uint (Nat.to_uint i)).
  { pose proof (to_uint_nonnil i). now destruct (Nat.to_uint i). }
  rewrite H, NilEmpty.usu. simpl.
  now rewrite DecimalNat.Unsigned.of_to.
Qed.

Lemma clip_path_inj (out_dir : string) (i j : nat) :
  clip_path out_dir i = clip_path out_dir j -> i = j.
Proof.
  rewrite !clip_path_eq. intros H. apply append_cancel_l in H.
  unfold segment_name in H. apply append_cancel_l in H.
  apply append_cancel_r in H.
  apply (f_equal index_of_digits) in H.
  rewrite !index_of_format_04d in H. now injection H.
Qed.

Lemma NoDup_map_inj {A B} (f : A -> B) (l : list A) :
  (forall x y, f x = f y -> x = y) -> NoDup l -> NoDup (map f l).
Proof.
  intros Hinj. induction 1 as [|x l Hx _ IH]; simpl; constructor; [|exact IH].
  intros Hin. apply in_map_iff in Hin. destruct Hin as (y & Hy & Hin).
  apply Hinj in Hy. now subst.
Qed.

(** X10.  The clips the stage returns are pairwise distinct paths, however many
    segments there are: no clip is written over another. *)
Theorem clips_never_collide
    (E : Env) (model_name : string) (segments : list Segment) (out_dir : string)
    (voice language speaker_wav : option string) (fs : FS) (files : list string) :
  res (synthesize_segments_tts E model_name segments out_dir
                               voice language speaker_wav fs) = Ok files ->
  NoDup files /\ length files = length segments.
Proof.
  intros Hok.
  destruct (stage_shape E model_name segments out_dir voice language
                        speaker_wav fs)
    as [[_ Ho] | (tts & s & tr & k & _ & _ & _ & _ & H)].
  - rewrite Ho in Hok. discriminate.
  - cbv zeta in H. destruct H as (_ & _ & Hr).
    rewrite Hok in Hr. destruct Hr as [_ ->]. split.
    + apply NoDup_map_inj; [apply clip_path_inj | apply seq_NoDup].
    + now rewrite length_map, length_seq.
Qed.

(* ------------------------------------------------------------------ *)
(** ** No segments *)

(** X8.  With no segment to speak, the stage still builds the engine and
    resolves the speaker, calls the engine for nothing, and returns the
    empty list instead of failing. *)
Theorem no_segments_no_engine_call
    (E : Env) (model_name out_dir : string)
    (voice language speaker_wav : option string) (tts : TTS E) (fs : FS) :
  fst (TTS_new E model_name fs) = Some tts ->
  let o := synthesize_segments_tts E model_name [] out_dir
                                   voice language speaker_wav fs in
  res o = Ok [] /\
  tts_calls (trace o) = [] /\
  trace o = EvTTSInit model_name :: trace (resolve_speaker E tts voice fs).
Proof.
  intros Hnew o.
  destruct (resolve_speaker_total E tts voice) as (s & tr & Hno & Hres).
  pose proof (synthesize_with_engine E model_name [] out_dir voice
                language speaker_wav fs tts s tr Hnew Hres) as Ho.
  cbv zeta in Ho. fold o in Ho. rewrite Ho, Hres. cbn.
  rewrite app_nil_r. split; [reflexivity|]. split; [|reflexivity].
  unfold tts_calls. cbn. apply (filter_none _ _ Hno).
Qed.

(* ------------------------------------------------------------------ *)
(** ** The life of the directive file *)

Section DirectiveFile.

Variable E : Env.


End DirectiveFile.

(* ------------------------------------------------------------------ *)
(** ** What is left of the workspace *)

Lemma prefix_append (a b : string) : String.prefix a (a +++ b) = true.
Proof.
  induction a as [|c a IH]; simpl; [now destruct b|].
  destruct (ascii_dec c c); [exact IH | congruence].
Qed.

Lemma endswith_slash_append (a : string) (c : ascii) (b : string) :
  endswith_slash (a +++ String c b) = endswith_slash (String c b).
Proof.
  induction a as [|x a IH]; [reflexivity|].
  change (String x a +++ String c b) with (String x (a +++ String c b)).
  cbn [endswith_slash]. rewrite IH.
  destruct (a +++ String c b) eqn:Hab; [|reflexivity].
  destruct a; discriminate.
Qed.

Lemma os_path_join_under (dir : string) (c : ascii) (x : string) :
  dir <> EmptyString -> endswith_slash dir = false ->
  Ascii.eqb c "/" = false ->
  os_path_join dir (String c x) = dir +++ "/" +++ String c x.
Proof.
  intros Hd Hs Hc. unfold os_path_join. cbn [startswith_slash].
  rewrite Hc, Hs. now destruct dir.
Qed.

Lemma in_tree_under (dir rest : string) : in_tree dir (dir +++ "/" +++ rest) = true.
Proof.
  unfold in_tree. rewrite <- append_assoc, prefix_append. apply orb_true_r.
Qed.

Section Leftovers.

Variable E : Env.

(** X11.  When the workspace name is a plain directory name (not empty, no
    trailing slash) and the directory is still there at cleanup, none of
    the files the run made on the way is left: the fetched video, the
    extracted audio, the clip directory and every clip, the concatenated
    audio and the directive file all lie in the workspace and go with
    it. *)
Theorem intermediate_files_do_not_survive (args : Args) (fs : FS) (p : string) :
  let d := workspace E fs in
  let b := main_body E args d (fs_at_start E fs) in
  d <> EmptyString ->
  endswith_slash d = false ->
  fs_after b d = Some Dir ->
  (In p (intermediate_paths d) \/
   exists i, p = clip_path (os_path_join d "tts_segments") i) ->
  fs_after (main E args fs) p = None.
Proof.
  intros d b Hd Hs Hdir Hp.
  assert (Htree : in_tree d p = true).
  { destruct Hp as [Hp | (i & ->)].
    - unfold intermediate_paths in Hp.
      rewrite !(os_path_join_under d) in Hp by (assumption || reflexivity).
      destruct Hp as [<- | [<- | [<- | [<- | [<- | []]]]]];
        try apply in_tree_under.
      rewrite !append_assoc. apply in_tree_under.
    - unfold clip_path.
      rewrite (os_path_join_under d) by (assumption || reflexivity).
      change (segment_name i)
        with (String "s" ("egment_" +++ format_04d i +++ ".wav")).
      rewrite os_path_join_under; [| | |reflexivity].
      + rewrite !append_assoc. apply in_tree_under.
      + destruct d; discriminate.
      + rewrite <- append_assoc, endswith_slash_append. reflexivity. }
  rewrite main_eq. fold d b. cbn [fs_after]. unfold shutil_rmtree.
  rewrite Hdir. cbn [fs_after]. unfold fs_remove_tree. now rewrite Htree.
Qed.

End Leftovers.

(* ------------------------------------------------------------------ *)
(** ** The further properties, run *)

Lemma local_source_witness :
  truthy (url local_args) = false /\
  Forall (fun p => video local_args = Some p)
         (video_inputs (trace (main demo local_args fs_with_talk))) /\
  video_inputs (trace (main demo local_args fs_with_talk)) = [talk; talk].
Proof.
  split; [reflexivity|]. split.
  - apply (local_path_is_source_without_url demo local_args fs_with_talk).
    reflexivity.
  - vm_compute. reflexivity.
Defined.

Lemma extraction_failure_witness :
  res (acquire_source broken_codec local_args "/tmp/tmpdub"
         (fs_at_start broken_codec fs_with_talk)) = Ok talk /\
  fst (subprocess_run broken_codec
         (extract_argv talk "/tmp/tmpdub/audio.wav")
         (fs_after (acquire_source broken_codec local_args "/tmp/tmpdub"
                      (fs_at_start broken_codec fs_with_talk)))) = false /\
  res (main broken_codec local_args fs_with_talk)
  = Raise (CalledProcessError (extract_argv talk "/tmp/tmpdub/audio.wav")) /\
  Forall (fun ev => is_engine_event ev = false)
         (trace (main broken_codec local_args fs_with_talk)).
Proof.
  destruct (extraction_failure_stops_the_run broken_codec local_args
              fs_with_talk talk eq_refl eq_refl) as (_ & H & _).
  split; [reflexivity|]. split; [reflexivity|].
  split; [vm_compute; reflexivity | exact H].
Defined.

Lemma no_roster_witness :
  fst (TTS_new no_roster "xtts" empty_fs) = Some tt /\
  tts_speakers no_roster tt = None /\
  exists k,
    k <= length hello_world /\
    trace (synthesize_segments_tts no_roster "xtts" hello_world demo_out_dir
             (Some "narrator_b") None None empty_fs)
    = EvTTSInit "xtts"
      :: firstn k (map (call_of demo_out_dir None None None)
                       (enumerate hello_world)).
Proof.
  split; [reflexivity|]. split; [reflexivity|].
  apply (no_roster_ignores_voice no_roster "xtts" hello_world demo_out_dir
           None None (Some "narrator_b") tt empty_fs eq_refl
           (or_introl eq_refl)).
Defined.

Lemma roster_voice_witness :
  fst (TTS_new demo "xtts" empty_fs) = Some tt /\
  tts_speakers demo tt = Some narrators /\
  "narrator_b" <> EmptyString /\
  in_roster "narrator_b" narrators = true /\
  Forall (fun ev => is_warning ev = false)
         (trace (synthesize_segments_tts demo "xtts" hello_world demo_out_dir
                   (Some "narrator_b") None None empty_fs)) /\
  exists k,
    trace (synthesize_segments_tts demo "xtts" hello_world demo_out_dir
             (Some "narrator_b") None None empty_fs)
    = EvTTSInit "xtts"
      :: roster_lines narrators
      ++ firstn k (map (call_of demo_out_dir (Some "narrator_b") None None)
                       (enumerate hello_world)).
Proof.
  assert (Hne : "narrator_b" <> EmptyString) by discriminate.
  destruct (roster_voice_is_used demo "xtts" hello_world demo_out_dir
              None None "narrator_b" tt "narrator_a" ["narrator_b"] empty_fs
              eq_refl eq_refl Hne eq_refl) as (k & _ & Htr).
  split; [reflexivity|]. split; [reflexivity|]. split; [exact Hne|].
  split; [reflexivity|]. split.
  - vm_compute. repeat constructor.
  - exists k. exact Htr.
Defined.

Lemma no_segments_witness :
  fst (TTS_new demo "xtts" empty_fs) = Some tt /\
  res (synthesize_segments_tts demo "xtts" [] demo_out_dir
         None None None empty_fs) = Ok [] /\
  tts_calls (trace (synthesize_segments_tts demo "xtts" [] demo_out_dir
                      None None None empty_fs)) = [].
Proof.
  destruct (no_segments_no_engine_call demo "xtts" demo_out_dir
              None None None tt empty_fs eq_refl) as (H1 & H2 & _).
  split; [reflexivity|]. split; [exact H1 | exact H2].
Defined.


Lemma clips_never_collide_witness :
  res (synthesize_segments_tts demo "xtts" hello_world demo_out_dir
         None None None empty_fs)
  = Ok [ "/tmp/tmpdub/tts_segments/segment_0000.wav";
         "/tmp/tmpdub/tts_segments/segment_0001.wav";
         "/tmp/tmpdub/tts_segments/segment_0002.wav" ] /\
  NoDup [ "/tmp/tmpdub/tts_segments/segment_0000.wav";
          "/tmp/tmpdub/tts_segments/segment_0001.wav";
          "/tmp/tmpdub/tts_segments/segment_0002.wav" ].
Proof.
  assert (Hok : res (synthesize_segments_tts demo "xtts" hello_world
                       demo_out_dir None None None empty_fs)
                = Ok [ "/tmp/tmpdub/tts_segments/segment_0000.wav";
                       "/tmp/tmpdub/tts_segments/segment_0001.wav";
                       "/tmp/tmpdub/tts_segments/segment_0002.wav" ])
    by reflexivity.
  split; [exact Hok|].
  apply (clips_never_collide demo "xtts" hello_world demo_out_dir
           None None None empty_fs _ Hok).
Defined.

Lemma intermediate_files_witness :
  workspace demo fs_with_talk <> EmptyString /\
  endswith_slash (workspace demo fs_with_talk) = false /\
  fs_after (main_body demo both_args (workspace demo fs_with_talk)
              (fs_at_start demo fs_with_talk))
           (workspace demo fs_with_talk) = Some Dir /\
  fs_after (main demo both_args fs_with_talk) "/tmp/tmpdub/audio.wav" = None /\
  fs_after (main demo both_args fs_with_talk)
           "/tmp/tmpdub/tts_segments/segment_0001.wav" = None.
Proof.
  assert (Hd : workspace demo fs_with_talk <> EmptyString) by discriminate.
  assert (Hdir : fs_after (main_body demo both_args (workspace demo fs_with_talk)
                             (fs_at_start demo fs_with_talk))
                          (workspace demo fs_with_talk) = Some Dir)
    by (vm_compute; reflexivity).
  split; [exact Hd|]. split; [reflexivity|]. split; [exact Hdir|]. split.
  - apply (intermediate_files_do_not_survive demo both_args fs_with_talk
             "/tmp/tmpdub/audio.wav" Hd eq_refl Hdir).
    left. right. left. reflexivity.
  - apply (intermediate_files_do_not_survive demo both_args fs_with_talk
             "/tmp/tmpdub/tts_segments/segment_0001.wav" Hd eq_refl Hdir).
    right. exists 1. reflexivity.
Defined.
